(** * The ticket simulator of [app.py]: a shallow embedding

    The Python program reads a table of tickets, checks its columns, builds
    one JSON payload per row, posts the payloads one after the other to an
    HTTP endpoint and reports what happened through Streamlit widgets.

    Python values are embedded as follows.
    - [str] is [string]; a text is its sequence of bytes, so non-ASCII
      content is ordinary content.
    - [int] is [Z].  [float] is [Q]: arithmetic on it is exact, the rounding
      of binary floating point is not modelled.
    - A raised exception is the [Raise] result of a computation.
    - Streamlit calls, [requests.post] and [time.sleep] are recorded, in
      program order, in the list of events a computation produces.
    - What the outside world answers ([requests.post], [random.random]) is
      read from an environment, indexed by the number of earlier calls.  A
      call of [requests.post] returns a response, raises a
      [RequestException], or raises an exception of another class. *)

From Stdlib Require Import QArith Qround Lqa.
From stdpp Require Import base decidable option list strings pretty.

Local Open Scope string_scope.
Local Open Scope list_scope.
Set Warnings "-register-all".

(** ** Exceptions and fallible expressions *)

Inductive exn :=
  | KeyError (key : string)
  | TypeError
  | ZeroDivisionError
  | CsvError (description : string)
  | OtherException (class_name description : string).

Inductive res (A : Type) :=
  | Ret (a : A)
  | Raise (e : exn).
Arguments Ret {A} a.
Arguments Raise {A} e.

#[global] Instance res_ret : MRet res := @Ret.
#[global] Instance res_bind : MBind res := λ A B f m,
  match m with
  | Ret a => f a
  | Raise e => Raise e
  end.

(** ** JSON-like values: the payload is a dict of strings and dicts *)

Inductive json :=
  | JString (s : string)
  | JObject (items : list (string * json)).

Fixpoint assoc (key : string) (items : list (string * json)) : option json :=
  match items with
  | [] => None
  | (k, v) :: rest => if decide (k = key) then Some v else assoc key rest
  end.

(** [d[key]] *)
Definition getitem (d : json) (key : string) : res json :=
  match d with
  | JString _ => Raise TypeError
  | JObject items =>
      match assoc key items with
      | Some v => Ret v
      | None => Raise (KeyError key)
      end
  end.

(** [d[k1][k2]...] *)
Fixpoint getpath (d : json) (path : list string) : res json :=
  match path with
  | [] => Ret d
  | key :: rest => getitem d key ≫= λ v, getpath v rest
  end.

(** The keys of a value, without its texts. *)
Inductive shape :=
  | SString
  | SObject (items : list (string * shape)).

Fixpoint shape_of (j : json) : shape :=
  match j with
  | JString _ => SString
  | JObject items =>
      SObject ((fix go (l : list (string * json)) : list (string * shape) :=
                  match l with
                  | [] => []
                  | (k, v) :: rest => (k, shape_of v) :: go rest
                  end) items)
  end.

(** ** Tables

    A [DataFrame] has column labels and rows; [iterrows] hands out each row
    as a [Series] indexed by the column labels.  A cell value is of any of
    the types pandas infers, so the type of cells and Python's [str] on it
    are parameters. *)

Section Cells.

Context {Value : Type}.
Variable str : Value → string.

Record Series := { index : list string; values : string → Value }.

Record DataFrame := { columns : list string; data : list (string → Value) }.

Definition len (df : DataFrame) : Z := Z.of_nat (length (data df)).

Definition iterrows (df : DataFrame) : list Series :=
  map (λ cells, {| index := columns df; values := cells |}) (data df).

(** [row[col]] *)
Definition row_get (row : Series) (col : string) : res Value :=
  if decide (col ∈ index row) then Ret (values row col) else Raise (KeyError col).

(** [df[col]] *)
Definition column (df : DataFrame) (col : string) : res (list Value) :=
  if decide (col ∈ columns df) then Ret (map (λ cells, cells col) (data df))
  else Raise (KeyError col).

(** ** [validate_csv_structure] and [create_ticket_payload] *)

Definition required_columns : list string :=
  ["id"; "channel"; "customer_name"; "subject"; "fullMessage"; "sentiment_name"].

Definition missing_columns (df : DataFrame) : list string :=
  filter (λ col, col ∉ columns df) required_columns.

Definition create_ticket_payload (row : Series) : res json :=
  id ← row_get row "id";
  channel ← row_get row "channel";
  customer_name ← row_get row "customer_name";
  subject ← row_get row "subject";
  fullMessage ← row_get row "fullMessage";
  sentiment_name ← row_get row "sentiment_name";
  mret (JObject
    [ ("external_id", JString (str id));
      ("source_channel", JString (str channel));
      ("customer", JObject [ ("name", JString (str customer_name)) ]);
      ("content", JObject [ ("subject", JString (str subject));
                            ("body", JString (str fullMessage)) ]);
      ("ai_analysis", JObject [ ("sentiment", JString (str sentiment_name)) ]) ]).

End Cells.

(** ** The outside world *)

(** What one [requests.post] call does: the exchange completes with a status
    code and a body, or the library raises a [RequestException] (connection
    refused, timeout, DNS or TLS failure, ...), or the call raises an
    exception of another class (urllib3's [LocationParseError] for a host
    label that is too long, for instance). *)
Inductive http_result :=
  | Response (status_code : Z) (text : string)
  | RequestException (description : string)
  | Raises (e : exn).

(** [post n endpoint payload] is the result of the call number [n];
    [random_bits n] is the 53-bit integer behind the draw number [n] of
    [random.random]. *)
Record Env := {
  post : nat → string → json → http_result;
  random_bits : nat → Z }.

Record World := { requests_sent : nat; numbers_drawn : nat }.

Definition initial_world : World := {| requests_sent := 0; numbers_drawn := 0 |}.

(** ** Events *)

Inductive message :=
  | SendingTicket (k total : Z)
  | ProcessCompleted
  | TicketSent (external_id : json) (status_code : Z)
  | ErrorSending (external_id : json) (response_text : string)
  | AllTicketsSent
  | CompletedWithErrors (failed : Z)
  | MissingColumns (missing : list string)
  | RequiredColumns
  | ValidCsvLoaded (tickets : Z)
  | EnterEndpoint
  | ErrorProcessingCsv (e : exn).

Inductive event :=
  | ProgressBar (value : Q)
  | StatusText (m : message)
  | Expander (external_id : json) (payload : json)
  | HttpPost (endpoint : string) (payload : json)
  | Sleep (seconds : Q)
  | StSuccess (m : message)
  | StError (m : message)
  | StWarning (m : message)
  | StInfo (m : message)
  | Markdown
  | Subheader (title : string)
  | Dataframe
  | Metric (label : string) (value : Z)
  | MetricText (label : string) (text : string)
  | Balloons.

(** ** Computations: a result or an exception, the new world, the events *)

Definition M (A : Type) : Type := World → res A * World * list event.

#[global] Instance M_ret : MRet M := λ A a w, (Ret a, w, []).
#[global] Instance M_bind : MBind M := λ A B f m w,
  match m w with
  | (Ret a, w', t) => let '(r, w'', t') := f a w' in (r, w'', t ++ t')
  | (Raise e, w', t) => (Raise e, w', t)
  end.

Definition emit (e : event) : M unit := λ w, (Ret tt, w, [e]).

Definition lift {A} (r : res A) : M A := λ w, (r, w, []).

Definition raise {A} (e : exn) : M A := lift (Raise e).

(** [try: body except Exception as e: handler(e)] *)
Definition try_except {A} (body : M A) (handler : exn → M A) : M A := λ w,
  match body w with
  | (Ret a, w', t) => (Ret a, w', t)
  | (Raise e, w', t) => let '(r, w'', t') := handler e w' in (r, w'', t ++ t')
  end.

Definition result {A} (x : res A * World * list event) : res A := x.1.1.
Definition world {A} (x : res A * World * list event) : World := x.1.2.
Definition trace {A} (x : res A * World * list event) : list event := x.2.

(** ** Arithmetic *)

(** [a / b] on integers *)
Definition truediv (a b : Z) : res Q :=
  if decide (b = 0%Z) then Raise ZeroDivisionError
  else Ret (inject_Z a / inject_Z b)%Q.

Definition two53 : Z := 9007199254740992.

(** The nearest integer, the even one of two that are equally near. *)
Definition round_half_even (x : Q) : Z :=
  let f := Qfloor x in
  match ((x - inject_Z f) ?= 1 # 2)%Q with
  | Lt => f
  | Gt => (f + 1)%Z
  | Eq => if Z.even f then f else (f + 1)%Z
  end.

(** [f"{x:.1f}"]: [x] rounded to one decimal, written with its sign, its
    integer part, a point and one digit. *)
Definition format_1f (x : Q) : string :=
  let tenths := Z.abs (round_half_even (x * 10)%Q) in
  (if Qlt_le_dec x 0 then "-" else "") +:+
  pretty (tenths `div` 10)%Z +:+ "." +:+ pretty (tenths `mod` 10)%Z.

Section Engine.

Context {Value : Type}.
Variable str : Value → string.
Variable nunique : list Value → Z.
Variable env : Env.

(** [requests.post(endpoint, json=payload, timeout=10, headers=...)] *)
Definition requests_post (endpoint : string) (payload : json) : M http_result :=
  λ w, (Ret (post env (requests_sent w) endpoint payload),
        {| requests_sent := S (requests_sent w); numbers_drawn := numbers_drawn w |},
        [HttpPost endpoint payload]).

(** [random.random()]: a multiple of 2^-53 in [0, 1) *)
Definition random_random : M Q :=
  λ w, (Ret (inject_Z (random_bits env (numbers_drawn w) `mod` two53) / inject_Z two53)%Q,
        {| requests_sent := requests_sent w; numbers_drawn := S (numbers_drawn w) |},
        []).

(** [random.uniform(a, b)] is [a + (b - a) * random()] *)
Definition random_uniform (a b : Q) : M Q :=
  r ← random_random; mret (a + (b - a) * r)%Q.

Definition time_sleep (seconds : Q) : M unit := emit (Sleep seconds).

(** ** [send_ticket]

    The [except] clause handles [RequestException] only: any other exception
    of [requests.post] leaves [send_ticket]. *)

Definition send_ticket (payload : json) (endpoint : string) : M (bool * Z * string) :=
  response ← requests_post endpoint payload;
  match response with
  | Response status_code text => mret (true, status_code, text)
  | RequestException e => mret (false, 0%Z, e)
  | Raises e => raise e
  end.

(** ** [validate_csv_structure] *)

Definition validate_csv_structure (df : DataFrame (Value := Value)) : M bool :=
  let missing := missing_columns df in
  if decide (missing = []) then mret true
  else
    emit (StError (MissingColumns missing));;
    emit (StInfo RequiredColumns);;
    mret false.

(** ** [send_tickets_process] *)

Record counters := { successful_sends : Z; failed_sends : Z }.

(** One turn of the [for] loop, for the row [row] at position [i]. *)
Definition loop_body (total_tickets : Z) (endpoint : string) (delay_min delay_max : Q)
    (i : Z) (row : Series) (c : counters) : M counters :=
  progress ← lift (truediv (i + 1) total_tickets);
  emit (ProgressBar progress);;
  emit (StatusText (SendingTicket (i + 1) total_tickets));;
  payload ← lift (create_ticket_payload str row);
  label ← lift (getitem payload "external_id");
  emit (Expander label payload);;
  '(success, status_code, response_text) ← send_ticket payload endpoint;
  c ← (if success : bool then
         let c := {| successful_sends := successful_sends c + 1;
                     failed_sends := failed_sends c |} in
         external_id ← lift (getitem payload "external_id");
         emit (StSuccess (TicketSent external_id status_code));;
         mret c
       else
         let c := {| successful_sends := successful_sends c;
                     failed_sends := failed_sends c + 1 |} in
         external_id ← lift (getitem payload "external_id");
         emit (StError (ErrorSending external_id response_text));;
         mret c);
  (if decide (i < total_tickets - 1)%Z then
     delay ← random_uniform delay_min delay_max;
     time_sleep delay
   else mret tt);;
  mret c.

(** [for i, (idx, row) in enumerate(rows)], from position [i] on *)
Fixpoint loop (total_tickets : Z) (endpoint : string) (delay_min delay_max : Q)
    (i : Z) (rows : list Series) (c : counters) : M counters :=
  match rows with
  | [] => mret c
  | row :: rest =>
      c ← loop_body total_tickets endpoint delay_min delay_max i row c;
      loop total_tickets endpoint delay_min delay_max (i + 1) rest c
  end.

(** The local variables of [send_tickets_process] when it returns. *)
Record summary := {
  total : Z;
  successes : Z;
  failures : Z;
  success_rate : Q }.

Definition send_tickets_process (df : DataFrame (Value := Value)) (endpoint : string)
    (delay_min delay_max : Q) : M summary :=
  let total_tickets := len df in
  emit (ProgressBar 0);;
  c ← loop total_tickets endpoint delay_min delay_max 0 (iterrows df)
        {| successful_sends := 0; failed_sends := 0 |};
  emit (ProgressBar 1);;
  emit (StatusText ProcessCompleted);;
  emit Markdown;;
  emit (Subheader "📊 Sending Summary");;
  emit (Metric "Successfully sent tickets" (successful_sends c));;
  emit (Metric "Failed tickets" (failed_sends c));;
  rate ← (if decide (total_tickets > 0)%Z then
            ratio ← lift (truediv (successful_sends c) total_tickets);
            mret (ratio * 100)%Q
          else mret 0%Q);
  emit (MetricText "Success rate" (format_1f rate +:+ "%"));;
  (if decide (successful_sends c = total_tickets) then
     emit Balloons;;
     emit (StSuccess AllTicketsSent)
   else if decide (failed_sends c > 0)%Z then
     emit (StWarning (CompletedWithErrors (failed_sends c)))
   else mret tt);;
  mret {| total := total_tickets; successes := successful_sends c;
          failures := failed_sends c; success_rate := rate |}.

(** ** [main]

    [csv_file] is the uploaded file, if any, as [pd.read_csv] reads it: a
    table or an exception.  [button] tells whether "Send Tickets" was
    pressed.  The page decoration that carries no data of the run (title,
    help text, input widgets) is not recorded. *)
Definition main (csv_file : option (res (DataFrame (Value := Value)))) (endpoint : string)
    (delay_min delay_max : Q) (button : bool) : M unit :=
  match csv_file with
  | None => mret tt
  | Some file =>
      try_except
        (df ← lift file;
         valid ← validate_csv_structure df;
         if valid : bool then
           emit (StSuccess (ValidCsvLoaded (len df)));;
           emit (Subheader "👀 CSV Preview");;
           emit Dataframe;;
           emit (Metric "Total tickets" (len df));;
           channels ← lift (column df "channel");
           emit (Metric "Unique channels" (nunique channels));;
           customers ← lift (column df "customer_name");
           emit (Metric "Unique customers" (nunique customers));;
           if decide (endpoint ≠ "") then
             emit Markdown;;
             if button then
               send_tickets_process df endpoint delay_min delay_max;;
               mret tt
             else mret tt
           else emit (StWarning EnterEndpoint)
         else mret tt)
        (λ e, emit (StError (ErrorProcessingCsv e)))
  end.

End Engine.

(** ** What a trace shows *)

(** The delivery attempts, in order. *)
Definition posts (t : list event) : list (string * json) :=
  omap (λ e, match e with HttpPost endpoint payload => Some (endpoint, payload) | _ => None end) t.

(** The "ticket k of n" announcements, in order. *)
Definition progress_events (t : list event) : list (Z * Z) :=
  omap (λ e, match e with StatusText (SendingTicket k n) => Some (k, n) | _ => None end) t.


(** The pauses, in order. *)
Definition delays (t : list event) : list Q :=
  omap (λ e, match e with Sleep d => Some d | _ => None end) t.

Definition is_payload_ready (e : event) : bool :=
  match e with Expander _ _ => true | _ => false end.

Definition is_post (e : event) : bool :=
  match e with HttpPost _ _ => true | _ => false end.

Definition is_item_event (e : event) : bool :=
  match e with
  | StSuccess (TicketSent _ _) | StError (ErrorSending _ _) => true
  | _ => false
  end.

Definition is_success_report (e : event) : bool :=
  match e with StSuccess (TicketSent _ _) => true | _ => false end.

Definition is_failure_report (e : event) : bool :=
  match e with StError (ErrorSending _ _) => true | _ => false end.

(** The per-ticket reports, in order. *)
Definition item_events (t : list event) : list event :=
  filter (λ e, is_item_event e = true) t.

(** The bar set to [k/n] or the text "ticket k of n". *)
Definition is_progress (k n : Z) (e : event) : bool :=
  match e with
  | ProgressBar value => Qeq_bool value (inject_Z k / inject_Z n)
  | StatusText (SendingTicket k' n') => bool_decide (k' = k ∧ n' = n)
  | _ => false
  end.

(** [in_order ps t]: events satisfying [ps], in this order, occur in [t]
    (other events may lie between them). *)
Fixpoint in_order (ps : list (event → bool)) (t : list event) : bool :=
  match ps, t with
  | [], _ => true
  | _ :: _, [] => false
  | p :: ps', e :: t' => if p e then in_order ps' t' else in_order ps t'
  end.

(** The order of one turn as the specification lists its steps (payload
    shown, post, report, progress [k] of [n]) and as the program runs them
    (progress first). *)
Definition specified_turn_order (k n : Z) (t : list event) : bool :=
  in_order [is_payload_ready; is_post; is_item_event; is_progress k n] t.

Definition program_turn_order (k n : Z) (t : list event) : bool :=
  in_order [is_progress k n; is_payload_ready; is_post; is_item_event] t.

(** A table passes the column check. *)
Definition valid {Value} (df : DataFrame (Value := Value)) : Prop :=
  missing_columns df = [].

(** The value [random.uniform] returns on draw number [n]. *)
Definition uniform_value (env : Env) (a b : Q) (n : nat) : Q :=
  (a + (b - a) * (inject_Z (random_bits env n `mod` two53) / inject_Z two53))%Q.

(** A row carries the six fields. *)
Definition has_required {Value} (row : Series (Value := Value)) : Prop :=
  ∀ col, col ∈ required_columns → col ∈ index row.

(** [requests.post] keeps to the contract of the library: it returns, or it
    raises a [RequestException]. *)
Definition keeps_contract (env : Env) : Prop :=
  ∀ n endpoint payload e, post env n endpoint payload ≠ Raises e.

(** What [send_ticket] gives for an answer of [requests.post]. *)
Definition delivered (r : http_result) : res (bool * Z * string) :=
  match r with
  | Response status_code text => Ret (true, status_code, text)
  | RequestException e => Ret (false, 0%Z, e)
  | Raises e => Raise e
  end.

(** The report for a ticket and the counters after it, by what [send_ticket]
    returned. *)
Definition item_event (external_id : json) (success : bool) (status_code : Z)
    (response_text : string) : event :=
  if success then StSuccess (TicketSent external_id status_code)
  else StError (ErrorSending external_id response_text).

Definition tally (c : counters) (success : bool) : counters :=
  if success
  then {| successful_sends := successful_sends c + 1; failed_sends := failed_sends c |}
  else {| successful_sends := successful_sends c; failed_sends := failed_sends c + 1 |}.

(** One turn of the loop at position [i], seen from outside: the world after
    it and the events it produces, for the built payload [p], what
    [send_ticket] returned and the number [drawn] of earlier random draws. *)
Definition pause_after (total_tickets i : Z) : bool :=
  bool_decide (i < total_tickets - 1)%Z.

Definition after_turn (pause : bool) (w : World) : World :=
  {| requests_sent := S (requests_sent w);
     numbers_drawn := if pause then S (numbers_drawn w) else numbers_drawn w |}.

Definition turn_events (env : Env) (total_tickets : Z) (endpoint : string)
    (delay_min delay_max : Q) (i : Z) (external_id p : json)
    (success : bool) (status_code : Z) (response_text : string)
    (drawn : nat) : list event :=
  [ ProgressBar (inject_Z (i + 1) / inject_Z total_tickets);
    StatusText (SendingTicket (i + 1) total_tickets);
    Expander external_id p;
    HttpPost endpoint p;
    item_event external_id success status_code response_text ] ++
  if pause_after total_tickets i
  then [Sleep (uniform_value env delay_min delay_max drawn)]
  else [].

(** The events of a turn in which [requests.post] raises an exception that
    [send_ticket] does not handle. *)
Definition aborted_turn_events (total_tickets : Z) (endpoint : string) (i : Z)
    (external_id p : json) : list event :=
  [ ProgressBar (inject_Z (i + 1) / inject_Z total_tickets);
    StatusText (SendingTicket (i + 1) total_tickets);
    Expander external_id p;
    HttpPost endpoint p ].

(** The events after the loop, for the final counters. *)
Definition closing_rate (total_tickets : Z) (c : counters) : Q :=
  if decide (total_tickets > 0)%Z
  then (inject_Z (successful_sends c) / inject_Z total_tickets * 100)%Q
  else 0%Q.

Definition closing_events (total_tickets : Z) (c : counters) : list event :=
  [ ProgressBar 1;
    StatusText ProcessCompleted;
    Markdown;
    Subheader "📊 Sending Summary";
    Metric "Successfully sent tickets" (successful_sends c);
    Metric "Failed tickets" (failed_sends c);
    MetricText "Success rate" (format_1f (closing_rate total_tickets c) +:+ "%") ] ++
  if decide (successful_sends c = total_tickets) then [Balloons; StSuccess AllTicketsSent]
  else if decide (failed_sends c > 0)%Z then [StWarning (CompletedWithErrors (failed_sends c))]
  else [].

(** The keys of every ticket payload. *)
Definition ticket_shape : shape :=
  SObject
    [ ("external_id", SString);
      ("source_channel", SString);
      ("customer", SObject [ ("name", SString) ]);
      ("content", SObject [ ("subject", SString); ("body", SString) ]);
      ("ai_analysis", SObject [ ("sentiment", SString) ]) ].

(** ** Sample data *)

(** A row with accented and non-Latin text. *)
Definition sample_row : Series (Value := string) :=
  {| index := required_columns;
     values := λ col,
       if decide (col = "id") then "42"
       else if decide (col = "customer_name") then "Zoë Müller"
       else if decide (col = "fullMessage") then "注文が届きません"
       else "émail" |}.

(** A table of two tickets, and a world where the first call fails to
    connect, the second exchange ends with status 500 and later ones end with
    status 200. *)
Definition sample_cells (id : string) : string → string :=
  λ col, if decide (col = "id") then id
         else if decide (col = "channel") then "chat"
         else "text".

Definition sample_table : DataFrame (Value := string) :=
  {| columns := ["id"; "channel"; "customer_name"; "subject"; "fullMessage";
                 "sentiment_name"; "priority"];
     data := [sample_cells "T-1"; sample_cells "T-2"] |}.

Definition sample_env : Env :=
  {| post := λ n _ _,
       match n with
       | 0%nat => RequestException "Connection refused"
       | 1%nat => Response 500 "Internal Server Error"
       | _ => Response 200 "ok"
       end;
     random_bits := λ n, (4503599627370496 + Z.of_nat n)%Z |}.


Definition long_label_endpoint : string :=
  "http://aaaaaaaaaaaaaaaaaaaaaaaaaaaaaaaaaaaaaaaaaaaaaaaaaaaaaaaaaaaaaaaa.example/hook".

(** A world where [requests.post] cannot parse the host of the endpoint. *)
Definition unparsable_host_env : Env :=
  {| post := λ _ _ _,
       Raises (OtherException "LocationParseError" "Failed to parse: label too long");
     random_bits := λ _, 0%Z |}.

(** A table without rows and a table without the [subject] column. *)
Definition empty_table : DataFrame (Value := string) :=
  {| columns := required_columns; data := [] |}.

Definition table_without_subject : DataFrame (Value := string) :=
  {| columns := ["id"; "channel"; "customer_name"; "fullMessage"; "sentiment_name"];
     data := [sample_cells "T-1"] |}.

Definition sample_first_row : Series (Value := string) :=
  {| index := columns sample_table; values := sample_cells "T-1" |}.

(** ** Further observations *)

(** The payloads shown to the user, each with its label, in order. *)
Definition shown (t : list event) : list (json * json) :=
  omap (λ e, match e with Expander label payload => Some (label, payload) | _ => None end) t.

(** The exceptions reported as "error processing CSV file", in order. *)
Definition processing_errors (t : list event) : list exn :=
  omap (λ e, match e with StError (ErrorProcessingCsv e) => Some e | _ => None end) t.

(** Posts and pauses, in order, without their data. *)
Inductive pace := Attempt | Pause.

Definition pacing (t : list event) : list pace :=
  omap (λ e, match e with
             | HttpPost _ _ => Some Attempt
             | Sleep _ => Some Pause
             | _ => None
             end) t.

(** The pacing of the first [k] turns of a loop over [total_tickets] rows. *)
Definition pacing_of_turns (total_tickets : Z) (k : nat) : list pace :=
  flat_map (λ i, Attempt :: if pause_after total_tickets i then [Pause] else [])
    (seqZ 0 (Z.of_nat k)).

(** The required columns a row lacks, in the order of the required list. *)
Definition missing_fields {Value} (row : Series (Value := Value)) : list string :=
  filter (λ col, col ∉ index row) required_columns.

(** What [main] shows for a table that passed the column check, before it
    looks at the endpoint. *)
Definition preview_events {Value} (nunique : list Value → Z)
    (df : DataFrame (Value := Value)) : list event :=
  [ StSuccess (ValidCsvLoaded (len df));
    Subheader "👀 CSV Preview";
    Dataframe;
    Metric "Total tickets" (len df);
    Metric "Unique channels" (nunique (map (λ cells, cells "channel") (data df)));
    Metric "Unique customers" (nunique (map (λ cells, cells "customer_name") (data df))) ].

(** The sample table with its columns in another order and without the
    extra one, and a ticket that differs from the first only in a column
    the payload does not use. *)
Definition shuffled_table : DataFrame (Value := string) :=
  {| columns := ["sentiment_name"; "fullMessage"; "subject"; "customer_name";
                 "channel"; "id"];
     data := [sample_cells "T-1"; sample_cells "T-2"] |}.

Definition sample_first_row_urgent : Series (Value := string) :=
  {| index := columns sample_table;
     values := λ col, if decide (col = "priority") then "urgent"
                      else sample_cells "T-1" col |}.

Definition count_distinct (l : list string) : Z := Z.of_nat (length (remove_dups l)).

(** * Properties *)

(** ** Columns and rows *)

Section TableFacts.

Context {Value : Type}.
Implicit Types (df : DataFrame (Value := Value)) (row : Series (Value := Value)).

Lemma missing_columns_spec df col :
  col ∈ missing_columns df ↔ col ∈ required_columns ∧ col ∉ columns df.
Proof.
  unfold missing_columns. rewrite list_elem_of_filter. tauto.
Qed.

Lemma valid_required df col : valid df → col ∈ required_columns → col ∈ columns df.
Proof.
  intros Hv Hc. destruct (decide (col ∈ columns df)) as [|Hn]; [done|].
  assert (col ∈ missing_columns df) as Hm by (by apply missing_columns_spec).
  rewrite Hv in Hm. by apply not_elem_of_nil in Hm.
Qed.

Lemma not_valid_missing df :
  ¬ valid df ↔ ∃ col, col ∈ required_columns ∧ col ∉ columns df.
Proof.
  unfold valid. split.
  - destruct (missing_columns df) as [|col ms] eqn:E; [done|]. intros _.
    exists col. apply missing_columns_spec. rewrite E. left.
  - intros (col & Hc) E. apply missing_columns_spec in Hc.
    rewrite E in Hc. by apply not_elem_of_nil in Hc.
Qed.

Lemma row_get_ok row col : col ∈ index row → row_get row col = Ret (values row col).
Proof. intros H. unfold row_get. by rewrite decide_True. Qed.

Lemma iterrows_index df row : row ∈ iterrows df → index row = columns df.
Proof.
  unfold iterrows. rewrite list_elem_of_fmap. by intros (cells & -> & _).
Qed.

Lemma length_iterrows df : Z.of_nat (length (iterrows df)) = len df.
Proof. unfold iterrows, len. by rewrite length_map. Qed.

End TableFacts.

(** ** Traces *)

Lemma posts_app t1 t2 : posts (t1 ++ t2) = posts t1 ++ posts t2.
Proof. apply omap_app. Qed.



Lemma delays_app t1 t2 : delays (t1 ++ t2) = delays t1 ++ delays t2.
Proof. apply omap_app. Qed.

Lemma item_events_app t1 t2 : item_events (t1 ++ t2) = item_events t1 ++ item_events t2.
Proof. apply filter_app. Qed.

(** ** Arithmetic *)

Lemma truediv_ok a b : b ≠ 0%Z → truediv a b = Ret (inject_Z a / inject_Z b)%Q.
Proof. intros H. unfold truediv. by rewrite decide_False. Qed.

Lemma random_unit (z : Z) :
  (0 <= inject_Z (z `mod` two53) / inject_Z two53 < 1)%Q.
Proof.
  assert (0 <= z `mod` two53 < two53)%Z as [Hlo Hhi]
    by (apply Z.mod_pos_bound; reflexivity).
  assert (0 < inject_Z two53)%Q as Hpos by reflexivity.
  split.
  - apply Qle_shift_div_l; [done|]. rewrite Qmult_0_l.
    change 0%Q with (inject_Z 0). by rewrite <- Zle_Qle.
  - apply Qlt_shift_div_r; [done|]. rewrite Qmult_1_l. by rewrite <- Zlt_Qlt.
Qed.

Lemma uniform_value_range env (a b : Q) n :
  (a <= b)%Q → (a <= uniform_value env a b n <= b)%Q.
Proof.
  intros Hab. unfold uniform_value.
  pose proof (random_unit (random_bits env n)) as Hr.
  set (r := (inject_Z (random_bits env n `mod` two53) / inject_Z two53)%Q) in *.
  clearbody r. destruct Hr as [Hr0 Hr1].
  assert (0 <= (b - a) * r)%Q by (apply Qmult_le_0_compat; lra).
  assert (0 <= (b - a) * (1 - r))%Q by (apply Qmult_le_0_compat; lra).
  split; lra.
Qed.

(** ** The payload *)

Section PayloadFacts.

Context {Value : Type}.
Variable str : Value → string.
Implicit Types (row : Series (Value := Value)).

Lemma create_ticket_payload_ok row :
  has_required row →
  create_ticket_payload str row = Ret (JObject
    [ ("external_id", JString (str (values row "id")));
      ("source_channel", JString (str (values row "channel")));
      ("customer", JObject [ ("name", JString (str (values row "customer_name"))) ]);
      ("content", JObject [ ("subject", JString (str (values row "subject")));
                            ("body", JString (str (values row "fullMessage"))) ]);
      ("ai_analysis", JObject [ ("sentiment", JString (str (values row "sentiment_name"))) ]) ]).
Proof.
  intros H. unfold create_ticket_payload.
  rewrite !row_get_ok by (apply H; unfold required_columns; repeat constructor).
  reflexivity.
Qed.

Lemma create_ticket_payload_external_id row p :
  create_ticket_payload str row = Ret p →
  getitem p "external_id" = Ret (JString (str (values row "id"))).
Proof.
  unfold create_ticket_payload, row_get, mbind, res_bind, mret, res_ret.
  repeat (case_decide; [|by intros ?]).
  by intros [= <-].
Qed.

Lemma create_ticket_payload_iterrows (df : DataFrame (Value := Value)) row :
  valid df → row ∈ iterrows df → has_required row.
Proof.
  intros Hv Hr col Hc. rewrite (iterrows_index _ _ Hr). by apply valid_required.
Qed.

End PayloadFacts.

(** ** One delivery *)

Section EngineFacts.

Context {Value : Type}.
Variable str : Value → string.
Variable env : Env.
Implicit Types (df : DataFrame (Value := Value)) (row : Series (Value := Value)).
Implicit Types (w : World) (c : counters).

Lemma send_ticket_eq payload endpoint w :
  send_ticket env payload endpoint w =
    (delivered (post env (requests_sent w) endpoint payload), after_turn false w,
     [HttpPost endpoint payload]).
Proof.
  unfold send_ticket, requests_post, raise, lift, mbind, M_bind, mret, M_ret.
  by destruct (post env _ _ _).
Qed.

Lemma delivered_contract n endpoint payload :
  keeps_contract env →
  ∃ success status_code response_text,
    delivered (post env n endpoint payload) = Ret (success, status_code, response_text).
Proof.
  intros Hc. specialize (Hc n endpoint payload).
  destruct (post env n endpoint payload) as [status_code text|description|e].
  - by eexists _, _, _.
  - by eexists _, _, _.
  - by destruct (Hc e).
Qed.

(** ** One turn of the loop *)

Lemma loop_body_eq total_tickets endpoint delay_min delay_max i row c w p
    success status_code response_text :
  total_tickets ≠ 0%Z →
  create_ticket_payload str row = Ret p →
  delivered (post env (requests_sent w) endpoint p) =
    Ret (success, status_code, response_text) →
  loop_body str env total_tickets endpoint delay_min delay_max i row c w =
    (Ret (tally c success), after_turn (pause_after total_tickets i) w,
     turn_events env total_tickets endpoint delay_min delay_max i
       (JString (str (values row "id"))) p success status_code response_text
       (numbers_drawn w)).
Proof.
  intros Htotal Hp Hd.
  pose proof (create_ticket_payload_external_id str row p Hp) as Hid.
  unfold loop_body, time_sleep, random_uniform, random_random.
  rewrite (truediv_ok _ _ Htotal), Hp.
  unfold mbind, M_bind, lift, emit, mret, M_ret. rewrite !Hid, send_ticket_eq, Hd.
  unfold turn_events, pause_after, after_turn, tally, item_event.
  destruct success; destruct (decide (i < total_tickets - 1)%Z) as [H|H];
    first [rewrite (bool_decide_eq_true_2 _ H) | rewrite (bool_decide_eq_false_2 _ H)];
    reflexivity.
Qed.

Lemma loop_body_raises total_tickets endpoint delay_min delay_max i row c w p e :
  total_tickets ≠ 0%Z →
  create_ticket_payload str row = Ret p →
  post env (requests_sent w) endpoint p = Raises e →
  loop_body str env total_tickets endpoint delay_min delay_max i row c w =
    (Raise e, after_turn false w,
     aborted_turn_events total_tickets endpoint i (JString (str (values row "id"))) p).
Proof.
  intros Htotal Hp Hr.
  pose proof (create_ticket_payload_external_id str row p Hp) as Hid.
  unfold loop_body. rewrite (truediv_ok _ _ Htotal), Hp.
  unfold mbind, M_bind, lift, emit, mret, M_ret. rewrite !Hid, send_ticket_eq, Hr.
  reflexivity.
Qed.

(** ** The loop, by invariant

    [I done c w t] relates the rows handled so far to the counters, the
    world and the events produced so far.  When an invariant holds before the
    loop and is kept by every turn in which [send_ticket] returns, either the
    loop returns and the invariant holds of all the rows, or [requests.post]
    raised an exception that [send_ticket] does not handle: the loop then
    raises it, and the invariant holds of the rows before. *)

Lemma loop_outcome (I : list Series → counters → World → list event → Prop)
    total_tickets endpoint delay_min delay_max rows :
  (rows = [] ∨ total_tickets ≠ 0%Z) →
  Forall has_required rows →
  (∀ done row c w t p success status_code response_text,
     I done c w t → row ∈ rows → create_ticket_payload str row = Ret p →
     delivered (post env (requests_sent w) endpoint p) =
       Ret (success, status_code, response_text) →
     let i := Z.of_nat (length done) in
     I (done ++ [row]) (tally c success) (after_turn (pause_after total_tickets i) w)
       (t ++ turn_events env total_tickets endpoint delay_min delay_max i
               (JString (str (values row "id"))) p success status_code response_text
               (numbers_drawn w))) →
  ∀ c w, I [] c w [] →
  (∃ c' w' t,
     loop str env total_tickets endpoint delay_min delay_max 0 rows c w = (Ret c', w', t) ∧
     I rows c' w' t) ∨
  (∃ done row rest c1 w1 t1 p e,
     rows = done ++ row :: rest ∧
     I done c1 w1 t1 ∧
     create_ticket_payload str row = Ret p ∧
     post env (requests_sent w1) endpoint p = Raises e ∧
     loop str env total_tickets endpoint delay_min delay_max 0 rows c w =
       (Raise e, after_turn false w1,
        t1 ++ aborted_turn_events total_tickets endpoint (Z.of_nat (length done))
                (JString (str (values row "id"))) p)).
Proof.
  intros Htotal Hrows Hstep.
  assert (∀ rest done c w t0,
    done ++ rest = rows → I done c w t0 →
    (∃ c' w' t,
       loop str env total_tickets endpoint delay_min delay_max
         (Z.of_nat (length done)) rest c w = (Ret c', w', t) ∧
       I rows c' w' (t0 ++ t)) ∨
    (∃ done' row rest' c1 w1 t1 p e t,
       rows = done' ++ row :: rest' ∧
       I done' c1 w1 t1 ∧
       create_ticket_payload str row = Ret p ∧
       post env (requests_sent w1) endpoint p = Raises e ∧
       loop str env total_tickets endpoint delay_min delay_max
         (Z.of_nat (length done)) rest c w = (Raise e, after_turn false w1, t) ∧
       t0 ++ t =
         t1 ++ aborted_turn_events total_tickets endpoint (Z.of_nat (length done'))
                 (JString (str (values row "id"))) p)) as Hgen.
  { induction rest as [|row rest IH]; intros done c w t0 Hsplit HI.
    - left. exists c, w, []. rewrite !app_nil_r in *. by subst.
    - assert (row ∈ rows) as Hin by (rewrite <- Hsplit, elem_of_app; right; left).
      assert (total_tickets ≠ 0%Z) as Hne
        by (destruct Htotal as [->|]; [by apply not_elem_of_nil in Hin|done]).
      rewrite Forall_forall in Hrows.
      assert (∃ p, create_ticket_payload str row = Ret p) as [p Hp]
        by (eexists; by apply create_ticket_payload_ok, Hrows).
      destruct (delivered (post env (requests_sent w) endpoint p))
        as [[[success status_code] response_text]|e] eqn:Hd.
      + pose proof (Hstep done row c w t0 p _ _ _ HI Hin Hp Hd) as Hs. simpl in Hs.
        assert ((done ++ [row]) ++ rest = rows) as Hsplit' by (by rewrite <- app_assoc).
        destruct (IH _ _ _ _ Hsplit' Hs)
          as [(c' & w' & t & Hloop & HI')
             |(done' & row' & rest' & c1 & w1 & t1 & p' & e & t & Hrows' & HI' & Hp'
               & Hr & Hloop & Ht)];
          rewrite length_app, Nat2Z.inj_add in Hloop;
          change (Z.of_nat (length [row])) with 1%Z in Hloop.
        * left. eexists c', w', _. split.
          -- cbn [loop]. unfold mbind, M_bind at 1.
             rewrite (loop_body_eq _ _ _ _ _ _ _ _ _ _ _ _ Hne Hp Hd), Hloop. reflexivity.
          -- by rewrite app_assoc.
        * right. eexists done', row', rest', c1, w1, t1, p', e, _.
          split; [done|]. split; [done|]. split; [done|]. split; [done|]. split.
          -- cbn [loop]. unfold mbind, M_bind at 1.
             rewrite (loop_body_eq _ _ _ _ _ _ _ _ _ _ _ _ Hne Hp Hd), Hloop. reflexivity.
          -- by rewrite app_assoc.
      + right.
        assert (post env (requests_sent w) endpoint p = Raises e) as Hr
          by (destruct (post env _ _ _); simpl in Hd; congruence).
        eexists done, row, rest, c, w, t0, p, e, _.
        split; [done|]. split; [done|]. split; [done|]. split; [done|]. split.
        * cbn [loop]. unfold mbind, M_bind at 1.
          rewrite (loop_body_raises _ _ _ _ _ _ _ _ _ _ Hne Hp Hr). reflexivity.
        * reflexivity. }
  intros c w HI.
  destruct (Hgen rows [] c w [] eq_refl HI)
    as [(c' & w' & t & Hloop & HI')
       |(before & row & rest & c1 & w1 & t1 & p & e & t & Hrows' & HI' & Hp & Hr & Hloop & Ht)].
  - left. by exists c', w', t.
  - right. exists before, row, rest, c1, w1, t1, p, e. simpl in Ht. by subst t.
Qed.

Lemma loop_invariant (I : list Series → counters → World → list event → Prop)
    total_tickets endpoint delay_min delay_max rows :
  keeps_contract env →
  (rows = [] ∨ total_tickets ≠ 0%Z) →
  Forall has_required rows →
  (∀ done row c w t p success status_code response_text,
     I done c w t → row ∈ rows → create_ticket_payload str row = Ret p →
     delivered (post env (requests_sent w) endpoint p) =
       Ret (success, status_code, response_text) →
     let i := Z.of_nat (length done) in
     I (done ++ [row]) (tally c success) (after_turn (pause_after total_tickets i) w)
       (t ++ turn_events env total_tickets endpoint delay_min delay_max i
               (JString (str (values row "id"))) p success status_code response_text
               (numbers_drawn w))) →
  ∀ c w, I [] c w [] →
  ∃ c' w' t,
    loop str env total_tickets endpoint delay_min delay_max 0 rows c w = (Ret c', w', t) ∧
    I rows c' w' t.
Proof.
  intros Hc Htotal Hrows Hstep c w HI.
  destruct (loop_outcome I total_tickets endpoint delay_min delay_max rows
              Htotal Hrows Hstep c w HI)
    as [Hret|(before & row & rest & c1 & w1 & t1 & p & e & _ & _ & _ & Hr & _)].
  - exact Hret.
  - by destruct (Hc _ _ _ _ Hr).
Qed.

Lemma send_tickets_process_raises df endpoint delay_min delay_max w e w' t :
  loop str env (len df) endpoint delay_min delay_max 0 (iterrows df)
    {| successful_sends := 0; failed_sends := 0 |} w = (Raise e, w', t) →
  send_tickets_process str env df endpoint delay_min delay_max w =
    (Raise e, w', [ProgressBar 0] ++ t).
Proof.
  intros Hloop. unfold send_tickets_process.
  unfold mbind, M_bind at 1 2. unfold emit at 1. by rewrite Hloop.
Qed.

Lemma send_tickets_process_eq df endpoint delay_min delay_max w c' w' t :
  loop str env (len df) endpoint delay_min delay_max 0 (iterrows df)
    {| successful_sends := 0; failed_sends := 0 |} w = (Ret c', w', t) →
  send_tickets_process str env df endpoint delay_min delay_max w =
    (Ret {| total := len df; successes := successful_sends c';
            failures := failed_sends c'; success_rate := closing_rate (len df) c' |},
     w', [ProgressBar 0] ++ t ++ closing_events (len df) c').
Proof.
  intros Hloop. unfold send_tickets_process, closing_events, closing_rate.
  unfold mbind, M_bind at 1 2. unfold emit at 1. rewrite Hloop.
  unfold mbind, M_bind, mret, M_ret, emit, lift.
  destruct (decide (len df > 0)%Z) as [Hpos|Hpos].
  - rewrite truediv_ok by lia.
    destruct (decide (successful_sends c' = len df));
      [|destruct (decide (failed_sends c' > 0)%Z)]; simpl; by rewrite ?app_nil_r.
  - destruct (decide (successful_sends c' = len df));
      [|destruct (decide (failed_sends c' > 0)%Z)]; simpl; by rewrite ?app_nil_r.
Qed.

End EngineFacts.

Lemma sample_env_keeps_contract : keeps_contract sample_env.
Proof. intros n endpoint payload e. by destruct n as [|[|n]]. Qed.

(** * The properties of the specification *)

(** ** Delivery client *)



(** ** Payload builder *)

(** C9. For a row that carries the six fields, the payload is built, reading
    its six entries back gives the texts [str] makes of the row's values,
    whatever bytes they hold, and the keys of the payload are always the
    same. *)
Theorem payload_round_trip {Value : Type} (str : Value → string) (row : Series) :
  has_required row →
  ∃ p,
    create_ticket_payload str row = Ret p ∧
    getpath p ["external_id"] = Ret (JString (str (values row "id"))) ∧
    getpath p ["source_channel"] = Ret (JString (str (values row "channel"))) ∧
    getpath p ["customer"; "name"] = Ret (JString (str (values row "customer_name"))) ∧
    getpath p ["content"; "subject"] = Ret (JString (str (values row "subject"))) ∧
    getpath p ["content"; "body"] = Ret (JString (str (values row "fullMessage"))) ∧
    getpath p ["ai_analysis"; "sentiment"] = Ret (JString (str (values row "sentiment_name"))) ∧
    shape_of p = ticket_shape.
Proof.
  intros H. eexists. split; [by apply create_ticket_payload_ok|].
  repeat split; reflexivity.
Qed.

Lemma payload_round_trip_witness :
  ∃ p,
    create_ticket_payload id sample_row = Ret p ∧
    getpath p ["external_id"] = Ret (JString "42") ∧
    getpath p ["source_channel"] = Ret (JString "émail") ∧
    getpath p ["customer"; "name"] = Ret (JString "Zoë Müller") ∧
    getpath p ["content"; "subject"] = Ret (JString "émail") ∧
    getpath p ["content"; "body"] = Ret (JString "注文が届きません") ∧
    getpath p ["ai_analysis"; "sentiment"] = Ret (JString "émail") ∧
    shape_of p = ticket_shape.
Proof.
  apply (payload_round_trip id sample_row). intros col H. exact H.
Defined.

(** ** Record validator *)

Lemma validate_csv_structure_eq {Value : Type} (df : DataFrame (Value := Value)) w :
  validate_csv_structure df w =
    if decide (missing_columns df = []) then (Ret true, w, [])
    else (Ret false, w, [StError (MissingColumns (missing_columns df)); StInfo RequiredColumns]).
Proof.
  unfold validate_csv_structure. by destruct (decide (missing_columns df = [])).
Qed.

Lemma main_invalid {Value : Type} (str : Value → string) nunique env
    (df : DataFrame (Value := Value)) endpoint delay_min delay_max button w :
  ¬ valid df →
  main str nunique env (Some (Ret df)) endpoint delay_min delay_max button w =
    (Ret tt, w, [StError (MissingColumns (missing_columns df)); StInfo RequiredColumns]).
Proof.
  intros Hv. unfold main, try_except, mbind, M_bind at 1 2. unfold lift.
  rewrite validate_csv_structure_eq, decide_False by done. reflexivity.
Qed.

(** C8. The column check fails exactly when one of the six required names is
    not a column label; it then reports the absent names, in the order of the
    required list, and [main] posts nothing.  The check reads the column
    labels only: it gives the same result for any rows. *)
Theorem validation_by_columns {Value : Type} (df : DataFrame (Value := Value)) (w : World) :
  let out := validate_csv_structure df w in
  required_columns =
    ["id"; "channel"; "customer_name"; "subject"; "fullMessage"; "sentiment_name"] ∧
  (result out = Ret false ∨ result out = Ret true) ∧
  (result out = Ret false ↔ ∃ col, col ∈ required_columns ∧ col ∉ columns df) ∧
  (∀ rows : list (string → Value),
     validate_csv_structure {| columns := columns df; data := rows |} w = out) ∧
  (result out = Ret false →
   ∃ missing,
     trace out = [StError (MissingColumns missing); StInfo RequiredColumns] ∧
     missing `sublist_of` required_columns ∧
     (∀ col, col ∈ missing ↔ col ∈ required_columns ∧ col ∉ columns df) ∧
     ∀ str nunique env endpoint delay_min delay_max button,
       posts (trace (main str nunique env (Some (Ret df)) endpoint
                       delay_min delay_max button w)) = []).
Proof.
  intros out. unfold out. rewrite validate_csv_structure_eq.
  split; [reflexivity|]. split; [|split; [|split]].
  - destruct (decide (missing_columns df = [])); [by right|by left].
  - rewrite <- not_valid_missing. unfold valid.
    destruct (decide (missing_columns df = [])); simpl; split; try done.
  - intros rows. by rewrite validate_csv_structure_eq.
  - destruct (decide (missing_columns df = [])) as [|Hv]; [done|]. intros _.
    exists (missing_columns df). split; [reflexivity|]. split; [|split].
    + apply sublist_filter.
    + apply missing_columns_spec.
    + intros. by rewrite main_invalid.
Qed.

(** ** Dispatch engine *)

Section RunFacts.

Context {Value : Type}.
Variable str : Value → string.
Variable env : Env.
Implicit Types (df : DataFrame (Value := Value)) (row : Series (Value := Value)).
Implicit Types (w : World) (c : counters) (t : list event).

(** A run over a valid table: either it returns, and an invariant of its
    loop holds of what the loop has produced when the closing events are
    added, or [requests.post] raised an exception that [send_ticket] does not
    handle, and the run raises it in the turn of that row, without closing
    events. *)
Lemma run_outcome (I : list Series → counters → World → list event → Prop)
    df endpoint delay_min delay_max w :
  valid df →
  (∀ done row c w t p success status_code response_text,
     I done c w t → row ∈ iterrows df → create_ticket_payload str row = Ret p →
     delivered (post env (requests_sent w) endpoint p) =
       Ret (success, status_code, response_text) →
     let i := Z.of_nat (length done) in
     I (done ++ [row]) (tally c success) (after_turn (pause_after (len df) i) w)
       (t ++ turn_events env (len df) endpoint delay_min delay_max i
               (JString (str (values row "id"))) p success status_code response_text
               (numbers_drawn w))) →
  I [] {| successful_sends := 0; failed_sends := 0 |} w [] →
  (∃ c' w' t,
     send_tickets_process str env df endpoint delay_min delay_max w =
       (Ret {| total := len df; successes := successful_sends c';
               failures := failed_sends c'; success_rate := closing_rate (len df) c' |},
        w', [ProgressBar 0] ++ t ++ closing_events (len df) c') ∧
     I (iterrows df) c' w' t) ∨
  (∃ done row rest c1 w1 t1 p e,
     iterrows df = done ++ row :: rest ∧
     I done c1 w1 t1 ∧
     create_ticket_payload str row = Ret p ∧
     post env (requests_sent w1) endpoint p = Raises e ∧
     send_tickets_process str env df endpoint delay_min delay_max w =
       (Raise e, after_turn false w1,
        [ProgressBar 0] ++ t1 ++
        aborted_turn_events (len df) endpoint (Z.of_nat (length done))
          (JString (str (values row "id"))) p)).
Proof.
  intros Hv Hstep Hinit.
  destruct (loop_outcome str env I (len df) endpoint delay_min delay_max (iterrows df))
    with (c := {| successful_sends := 0; failed_sends := 0 |}) (w := w)
    as [(c' & w' & t & Hloop & HI)
       |(before & row & rest & c1 & w1 & t1 & p & e & Hrows & HI & Hp & Hr & Hloop)];
    try done.
  - rewrite <- length_iterrows. destruct (iterrows df); [by left|by right].
  - apply Forall_forall. intros row Hrow.
    by eapply create_ticket_payload_iterrows.
  - left. exists c', w', t. split; [|done]. by apply send_tickets_process_eq.
  - right. exists before, row, rest, c1, w1, t1, p, e.
    split; [done|]. split; [done|]. split; [done|]. split; [done|].
    by apply send_tickets_process_raises.
Qed.

(** When [requests.post] keeps to its contract, the run returns. *)
Lemma run_invariant (I : list Series → counters → World → list event → Prop)
    df endpoint delay_min delay_max w :
  keeps_contract env →
  valid df →
  (∀ done row c w t p success status_code response_text,
     I done c w t → row ∈ iterrows df → create_ticket_payload str row = Ret p →
     delivered (post env (requests_sent w) endpoint p) =
       Ret (success, status_code, response_text) →
     let i := Z.of_nat (length done) in
     I (done ++ [row]) (tally c success) (after_turn (pause_after (len df) i) w)
       (t ++ turn_events env (len df) endpoint delay_min delay_max i
               (JString (str (values row "id"))) p success status_code response_text
               (numbers_drawn w))) →
  I [] {| successful_sends := 0; failed_sends := 0 |} w [] →
  ∃ c' w' t,
    send_tickets_process str env df endpoint delay_min delay_max w =
      (Ret {| total := len df; successes := successful_sends c';
              failures := failed_sends c'; success_rate := closing_rate (len df) c' |},
       w', [ProgressBar 0] ++ t ++ closing_events (len df) c') ∧
    I (iterrows df) c' w' t.
Proof.
  intros Hc Hv Hstep Hinit.
  destruct (run_outcome I df endpoint delay_min delay_max w Hv Hstep Hinit)
    as [Hret|(before & row & rest & c1 & w1 & t1 & p & e & _ & _ & _ & Hr & _)].
  - exact Hret.
  - by destruct (Hc _ _ _ _ Hr).
Qed.

Lemma posts_closing_events n c : posts (closing_events n c) = [].
Proof. unfold closing_events. by repeat case_decide. Qed.


Lemma delays_closing_events n c : delays (closing_events n c) = [].
Proof. unfold closing_events. by repeat case_decide. Qed.

Lemma posts_turn_events n endpoint a b i x p s sc rt k :
  posts (turn_events env n endpoint a b i x p s sc rt k) = [(endpoint, p)].
Proof. unfold turn_events. by destruct s, (pause_after n i). Qed.




Lemma item_events_closing_events n c : item_events (closing_events n c) = [].
Proof. unfold closing_events. by repeat case_decide. Qed.

Lemma item_events_turn_events n endpoint a b i x p s sc rt k :
  item_events (turn_events env n endpoint a b i x p s sc rt k) = [item_event x s sc rt].
Proof. unfold turn_events. by destruct s, (pause_after n i). Qed.

Lemma delays_turn_events n endpoint a b i x p s sc rt k :
  delays (turn_events env n endpoint a b i x p s sc rt k) =
    if pause_after n i then [uniform_value env a b k] else [].
Proof. unfold turn_events. by destruct s, (pause_after n i). Qed.

End RunFacts.

(** C5. A run over a valid table, with [requests.post] keeping to its
    contract, returns, and the two counters it reports add up to the number
    of rows. *)
Theorem counters_add_up {Value : Type} (str : Value → string) (env : Env)
    (df : DataFrame (Value := Value)) (endpoint : string) (delay_min delay_max : Q)
    (w : World) :
  valid df →
  keeps_contract env →
  let out := send_tickets_process str env df endpoint delay_min delay_max w in
  ∃ s,
    result out = Ret s ∧
    total s = len df ∧
    (successes s + failures s = total s)%Z ∧
    Metric "Successfully sent tickets" (successes s) ∈ trace out ∧
    Metric "Failed tickets" (failures s) ∈ trace out.
Proof.
  intros Hv Hc out.
  destruct (run_invariant str env
    (λ done c _ _, (successful_sends c + failed_sends c = Z.of_nat (length done))%Z)
    df endpoint delay_min delay_max w Hc Hv) as (c' & w' & t & Hrun & HI).
  - intros done row c w0 t p success status_code response_text HI _ _ Hd. simpl. rewrite length_app. simpl.
    destruct success; simpl; lia.
  - reflexivity.
  - unfold out. rewrite Hrun. eexists. split; [reflexivity|]. simpl.
    rewrite length_iterrows in HI. split; [done|]. split; [done|].
    unfold trace. simpl. split.
    + rewrite elem_of_cons, elem_of_app. right. right.
      unfold closing_events. rewrite elem_of_app. left. by repeat constructor.
    + rewrite elem_of_cons, elem_of_app. right. right.
      unfold closing_events. rewrite elem_of_app. left. by repeat constructor.
Qed.

Lemma counters_add_up_witness :
  ∃ s,
    result (send_tickets_process id sample_env sample_table "http://localhost/hook"
              (1 # 2) (3 # 2) initial_world) = Ret s ∧
    total s = len sample_table ∧
    (successes s + failures s = total s)%Z ∧
    Metric "Successfully sent tickets" (successes s) ∈
      trace (send_tickets_process id sample_env sample_table "http://localhost/hook"
               (1 # 2) (3 # 2) initial_world) ∧
    Metric "Failed tickets" (failures s) ∈
      trace (send_tickets_process id sample_env sample_table "http://localhost/hook"
               (1 # 2) (3 # 2) initial_world).
Proof.
  apply (counters_add_up id sample_env sample_table "http://localhost/hook"
           (1 # 2) (3 # 2) initial_world).
  - reflexivity.
  - exact sample_env_keeps_contract.
Defined.




(** C7. A run over a valid table of N > 0 rows with
    [delay_min <= delay_max], with [requests.post] keeping to its contract,
    sleeps N - 1 times, each time for a duration between [delay_min] and
    [delay_max], and not after the last post. *)
Theorem delays_between_rows {Value : Type} (str : Value → string) (env : Env)
    (df : DataFrame (Value := Value)) (endpoint : string) (delay_min delay_max : Q)
    (w : World) :
  valid df →
  keeps_contract env →
  (len df > 0)%Z →
  (delay_min <= delay_max)%Q →
  let out := send_tickets_process str env df endpoint delay_min delay_max w in
  Z.of_nat (length (delays (trace out))) = (len df - 1)%Z ∧
  Forall (λ d, (delay_min <= d <= delay_max)%Q) (delays (trace out)) ∧
  ∃ before endpoint' payload after,
    trace out = before ++ HttpPost endpoint' payload :: after ∧
    posts after = [] ∧ delays after = [].
Proof.
  intros Hv Hc Hpos Hle out.
  destruct (run_invariant str env
    (λ done _ _ t,
       Z.of_nat (length (delays t)) = Z.min (Z.of_nat (length done)) (len df - 1) ∧
       Forall (λ d, (delay_min <= d <= delay_max)%Q) (delays t) ∧
       (done = [] ∨
        ∃ before endpoint' payload after,
          t = before ++ HttpPost endpoint' payload :: after ∧
          posts after = [] ∧
          (pause_after (len df) (Z.of_nat (length done) - 1) = false → delays after = [])))
    df endpoint delay_min delay_max w Hc Hv) as (c' & w' & t & Hrun & Hcount & Hrange & Hlast).
  - intros done row c w0 t p success status_code response_text (Hcount & Hrange & _) _ _ Hd. simpl.
    assert (Z.of_nat (length (done ++ [row])) - 1 = Z.of_nat (length done))%Z as Hi
      by (rewrite length_app; simpl; lia).
    rewrite Hi, delays_app, delays_turn_events.
    split; [|split].
    + rewrite !length_app, Nat2Z.inj_add.
      unfold pause_after. case_bool_decide; simpl; lia.
    + apply Forall_app. split; [done|].
      destruct (pause_after _ _); [|constructor].
      repeat constructor; by apply uniform_value_range.
    + right. unfold turn_events.
      eexists (t ++ [_; _; _]), endpoint, p, _. split.
      { rewrite <- !app_assoc. simpl. reflexivity. }
      split; [by destruct success, (pause_after _ _)|].
      intros ->. by destruct success.
  - split; [simpl; lia|]. split; [constructor|by left].
  - unfold out. rewrite Hrun. unfold trace. simpl.
    rewrite delays_app, delays_closing_events, app_nil_r.
    rewrite length_iterrows in Hcount. split; [lia|]. split; [done|].
    destruct Hlast as [Hnil|(before & endpoint' & payload & after & -> & Hposts & Hdelays)].
    { pose proof (length_iterrows df) as Hlen. rewrite Hnil in Hlen. simpl in Hlen. lia. }
    exists (ProgressBar 0 :: before), endpoint', payload, (after ++ closing_events (len df) c').
    split; [by rewrite <- app_assoc|].
    rewrite posts_app, delays_app, posts_closing_events, delays_closing_events, Hposts.
    split; [done|]. rewrite Hdelays; [done|].
    rewrite length_iterrows. unfold pause_after. apply bool_decide_eq_false. lia.
Qed.

Lemma delays_between_rows_witness :
  let out := send_tickets_process id sample_env sample_table "http://localhost/hook"
               (1 # 2) (3 # 2) initial_world in
  Z.of_nat (length (delays (trace out))) = (len sample_table - 1)%Z ∧
  Forall (λ d, (1 # 2 <= d <= 3 # 2)%Q) (delays (trace out)) ∧
  ∃ before endpoint' payload after,
    trace out = before ++ HttpPost endpoint' payload :: after ∧
    posts after = [] ∧ delays after = [].
Proof.
  apply (delays_between_rows id sample_env sample_table "http://localhost/hook"
           (1 # 2) (3 # 2) initial_world).
  - reflexivity.
  - exact sample_env_keeps_contract.
  - reflexivity.
  - vm_compute. discriminate.
Defined.

(** *** The empty table *)

Lemma send_tickets_process_empty {Value : Type} (str : Value → string) (env : Env)
    (df : DataFrame (Value := Value)) endpoint delay_min delay_max w :
  len df = 0%Z →
  send_tickets_process str env df endpoint delay_min delay_max w =
    (Ret {| total := 0; successes := 0; failures := 0; success_rate := 0 |}, w,
     [ ProgressBar 0; ProgressBar 1; StatusText ProcessCompleted; Markdown;
       Subheader "📊 Sending Summary";
       Metric "Successfully sent tickets" 0; Metric "Failed tickets" 0;
       MetricText "Success rate" "0.0%";
       Balloons; StSuccess AllTicketsSent ]).
Proof.
  intros Hlen.
  assert (iterrows df = []) as Hrows.
  { unfold len in Hlen. unfold iterrows. by destruct (data df). }
  rewrite (send_tickets_process_eq str env df endpoint delay_min delay_max w
             {| successful_sends := 0; failed_sends := 0 |} w [])
    by (by rewrite Hrows).
  by rewrite Hlen.
Qed.

(** C6. For a table without rows the run returns, without a division by
    zero: the loop produces nothing (no announcement, payload, post, report
    or pause), both counters are reported as 0 and the rate as 0. *)
Theorem empty_run_rate_zero {Value : Type} (str : Value → string) (env : Env)
    (df : DataFrame (Value := Value)) (endpoint : string) (delay_min delay_max : Q)
    (w : World) :
  len df = 0%Z →
  let out := send_tickets_process str env df endpoint delay_min delay_max w in
  result out = Ret {| total := 0; successes := 0; failures := 0; success_rate := 0 |} ∧
  world out = w ∧
  progress_events (trace out) = [] ∧
  posts (trace out) = [] ∧
  item_events (trace out) = [] ∧
  delays (trace out) = [] ∧
  in_order [is_payload_ready] (trace out) = false ∧
  Metric "Successfully sent tickets" 0 ∈ trace out ∧
  Metric "Failed tickets" 0 ∈ trace out ∧
  MetricText "Success rate" "0.0%" ∈ trace out.
Proof.
  intros Hlen out. unfold out. rewrite send_tickets_process_empty by done.
  unfold result, world, trace. simpl.
  repeat split; try reflexivity; by repeat constructor.
Qed.

Lemma empty_run_rate_zero_witness :
  let out := send_tickets_process id sample_env empty_table "http://localhost/hook"
               (1 # 2) (3 # 2) initial_world in
  result out = Ret {| total := 0; successes := 0; failures := 0; success_rate := 0 |} ∧
  world out = initial_world ∧
  progress_events (trace out) = [] ∧
  posts (trace out) = [] ∧
  item_events (trace out) = [] ∧
  delays (trace out) = [] ∧
  in_order [is_payload_ready] (trace out) = false ∧
  Metric "Successfully sent tickets" 0 ∈ trace out ∧
  Metric "Failed tickets" 0 ∈ trace out ∧
  MetricText "Success rate" "0.0%" ∈ trace out.
Proof.
  apply (empty_run_rate_zero id sample_env empty_table "http://localhost/hook"
           (1 # 2) (3 # 2) initial_world).
  reflexivity.
Defined.

(** C10. For a table without rows the run ends on the all-successful branch,
    since both sides of [successful_sends == total_tickets] are 0: its last
    events are the balloons and the message that all tickets were sent, and
    it shows no warning. *)
Theorem empty_run_celebrates {Value : Type} (str : Value → string) (env : Env)
    (df : DataFrame (Value := Value)) (endpoint : string) (delay_min delay_max : Q)
    (w : World) :
  len df = 0%Z →
  let out := send_tickets_process str env df endpoint delay_min delay_max w in
  (∃ s, result out = Ret s ∧ successes s = total s ∧ total s = 0%Z) ∧
  (∃ t, trace out = t ++ [Balloons; StSuccess AllTicketsSent]) ∧
  (∀ m, StWarning m ∉ trace out).
Proof.
  intros Hlen out. unfold out. rewrite send_tickets_process_empty by done.
  unfold result, trace. simpl. split; [|split].
  - by eexists.
  - by eexists [_; _; _; _; _; _; _; _].
  - intros m Hm. rewrite !elem_of_cons in Hm.
    repeat (destruct Hm as [Hm|Hm]; [discriminate|]). by apply not_elem_of_nil in Hm.
Qed.

Lemma empty_run_celebrates_witness :
  let out := send_tickets_process id sample_env empty_table "http://localhost/hook"
               (1 # 2) (3 # 2) initial_world in
  (∃ s, result out = Ret s ∧ successes s = total s ∧ total s = 0%Z) ∧
  (∃ t, trace out = t ++ [Balloons; StSuccess AllTicketsSent]) ∧
  (∀ m, StWarning m ∉ trace out).
Proof.
  apply (empty_run_celebrates id sample_env empty_table "http://localhost/hook"
           (1 # 2) (3 # 2) initial_world).
  reflexivity.
Defined.

(** *** Classification *)

(** C1. In a run over a valid table, with [requests.post] keeping to its
    contract (every call returns or raises a [RequestException]), the report
    for the record at position [k] is decided by what [requests.post] did on
    call [k] alone: when the exchange completed, with any status code, it is
    the success message with the record's external id and that status code;
    when the library raised, it is the error message with the external id and
    the description of the failure.  The success counter is the number of
    success messages and the failure counter the number of error messages. *)
Theorem classification_by_transport {Value : Type} (str : Value → string) (env : Env)
    (df : DataFrame (Value := Value)) (endpoint : string) (delay_min delay_max : Q)
    (w : World) :
  valid df →
  keeps_contract env →
  let out := send_tickets_process str env df endpoint delay_min delay_max w in
  ∃ s,
    result out = Ret s ∧
    (∀ k row, iterrows df !! k = Some row →
       ∃ p, create_ticket_payload str row = Ret p ∧
            match post env (requests_sent w + k) endpoint p with
            | Response status_code _ =>
                item_events (trace out) !! k = Some
                  (StSuccess (TicketSent (JString (str (values row "id"))) status_code))
            | RequestException description =>
                item_events (trace out) !! k = Some
                  (StError (ErrorSending (JString (str (values row "id"))) description))
            | Raises _ => False
            end) ∧
    successes s = Z.of_nat (length (filter (λ e, is_success_report e = true)
                                      (item_events (trace out)))) ∧
    failures s = Z.of_nat (length (filter (λ e, is_failure_report e = true)
                                     (item_events (trace out)))).
Proof.
  intros Hv Hc out.
  destruct (run_invariant str env
    (λ done c w' t,
       requests_sent w' = (requests_sent w + length done)%nat ∧
       length (item_events t) = length done ∧
       (∀ k row, done !! k = Some row →
          ∃ p success status_code response_text,
            create_ticket_payload str row = Ret p ∧
            delivered (post env (requests_sent w + k) endpoint p) =
              Ret (success, status_code, response_text) ∧
            item_events t !! k = Some
              (item_event (JString (str (values row "id")))
                 success status_code response_text)) ∧
       successful_sends c =
         Z.of_nat (length (filter (λ e, is_success_report e = true) (item_events t))) ∧
       failed_sends c =
         Z.of_nat (length (filter (λ e, is_failure_report e = true) (item_events t))))
    df endpoint delay_min delay_max w Hc Hv)
    as (c' & w' & t & Hrun & _ & _ & Hitems & Hs & Hf).
  - intros done row c w0 t p success status_code response_text (Hsent & Hlen & Hitems & Hs & Hf) _ Hp Hd. simpl.
    rewrite item_events_app, item_events_turn_events, !filter_app, !length_app.
    split; [simpl; lia|]. split; [simpl; lia|]. split; [|split].
    + intros k row' Hk.
      destruct (decide (k < length done)%nat) as [Hlt|Hge].
      * rewrite lookup_app_l in Hk by done.
        destruct (Hitems k row' Hk) as (p' & s' & sc' & rt' & Hp' & Hd' & Hev).
        exists p', s', sc', rt'. split; [done|]. split; [done|].
        by rewrite lookup_app_l by lia.
      * rewrite lookup_app_r in Hk by lia.
        destruct (k - length done)%nat as [|n] eqn:Hn; [|done].
        injection Hk as <-. exists p, success, status_code, response_text.
        split; [done|].
        replace (requests_sent w + k)%nat with (requests_sent w0) by lia.
        split; [done|].
        rewrite lookup_app_r by lia. by rewrite Hlen, Hn.
    + destruct success; simpl; rewrite Hs; lia.
    + destruct success; simpl; rewrite Hf; lia.
  - repeat split; done.
  - unfold out. rewrite Hrun. unfold result, trace. simpl.
    replace (item_events (ProgressBar 0 :: t ++ closing_events (len df) c'))
      with (item_events t).
    2: { change (ProgressBar 0 :: t ++ closing_events (len df) c')
           with ([ProgressBar 0] ++ t ++ closing_events (len df) c').
         by rewrite !item_events_app, item_events_closing_events, app_nil_r. }
    eexists. split; [reflexivity|]. simpl. split; [|done].
    intros k row Hk. destruct (Hitems k row Hk) as (p & s' & sc' & rt' & Hp & Hd & Hev).
    exists p. split; [done|]. rewrite Hev.
    destruct (post env _ _ _); simpl in Hd; by simplify_eq.
Qed.

Lemma classification_by_transport_witness :
  let out := send_tickets_process id sample_env sample_table "http://localhost/hook"
               (1 # 2) (3 # 2) initial_world in
  ∃ s,
    result out = Ret s ∧
    (∀ k row, iterrows sample_table !! k = Some row →
       ∃ p, create_ticket_payload id row = Ret p ∧
            match post sample_env (requests_sent initial_world + k)
                    "http://localhost/hook" p with
            | Response status_code _ =>
                item_events (trace out) !! k = Some
                  (StSuccess (TicketSent (JString (id (values row "id"))) status_code))
            | RequestException description =>
                item_events (trace out) !! k = Some
                  (StError (ErrorSending (JString (id (values row "id"))) description))
            | Raises _ => False
            end) ∧
    successes s = Z.of_nat (length (filter (λ e, is_success_report e = true)
                                      (item_events (trace out)))) ∧
    failures s = Z.of_nat (length (filter (λ e, is_failure_report e = true)
                                     (item_events (trace out)))).
Proof.
  apply (classification_by_transport id sample_env sample_table "http://localhost/hook"
           (1 # 2) (3 # 2) initial_world).
  - reflexivity.
  - exact sample_env_keeps_contract.
Defined.

(** *** The order of events in one turn *)

(** C2, as the specification states it, fails: in the turn for the first of
    two records, and in the whole run over them, no progress event "1 of 2"
    follows the report of the first record; it comes before the payload is
    shown. *)
Lemma progress_after_report_fails :
  specified_turn_order 1 2
    (trace (loop_body id sample_env 2 "http://localhost/hook" (1 # 2) (3 # 2) 0
              sample_first_row {| successful_sends := 0; failed_sends := 0 |}
              initial_world)) = false ∧
  specified_turn_order 1 2
    (trace (send_tickets_process id sample_env sample_table "http://localhost/hook"
              (1 # 2) (3 # 2) initial_world)) = false ∧
  program_turn_order 1 2
    (trace (loop_body id sample_env 2 "http://localhost/hook" (1 # 2) (3 # 2) 0
              sample_first_row {| successful_sends := 0; failed_sends := 0 |}
              initial_world)) = true.
Proof. repeat split; vm_compute; reflexivity. Qed.

(** C2, amended.  When [requests.post] keeps to its contract, the turn for
    the row at position [i] produces, in this order: the progress events for
    [i + 1] of [total_tickets] (bar, then text), the payload shown for the
    built payload, the post of that payload, the report for the record, and
    then the pause if there is one. *)
Theorem progress_precedes_delivery {Value : Type} (str : Value → string) (env : Env)
    (total_tickets : Z) (endpoint : string) (delay_min delay_max : Q) (i : Z)
    (row : Series) (c : counters) (w : World) :
  total_tickets ≠ 0%Z →
  has_required row →
  keeps_contract env →
  ∃ p report pause,
    create_ticket_payload str row = Ret p ∧
    is_item_event report = true ∧
    (pause = [] ∨ ∃ d, pause = [Sleep d]) ∧
    trace (loop_body str env total_tickets endpoint delay_min delay_max i row c w) =
      [ ProgressBar (inject_Z (i + 1) / inject_Z total_tickets);
        StatusText (SendingTicket (i + 1) total_tickets);
        Expander (JString (str (values row "id"))) p;
        HttpPost endpoint p;
        report ] ++ pause.
Proof.
  intros Htotal Hrow Hc.
  destruct (create_ticket_payload str row) as [p|] eqn:Hp;
    [|by rewrite create_ticket_payload_ok in Hp].
  destruct (delivered_contract env (requests_sent w) endpoint p Hc)
    as (success & status_code & response_text & Hd).
  rewrite (loop_body_eq str env _ _ _ _ _ _ _ _ _ _ _ _ Htotal Hp Hd).
  pose proof (create_ticket_payload_external_id str row p Hp) as Hid.
  eexists _, _, _. split; [done|]. unfold trace, turn_events. simpl.
  split; [|split; [|reflexivity]].
  - by destruct success.
  - destruct (pause_after _ _); [right; by eexists|by left].
Qed.

Lemma progress_precedes_delivery_witness :
  ∃ p report pause,
    create_ticket_payload id sample_first_row = Ret p ∧
    is_item_event report = true ∧
    (pause = [] ∨ ∃ d, pause = [Sleep d]) ∧
    trace (loop_body id sample_env 2 "http://localhost/hook" (1 # 2) (3 # 2) 0
             sample_first_row {| successful_sends := 0; failed_sends := 0 |}
             initial_world) =
      [ ProgressBar (inject_Z (0 + 1) / inject_Z 2);
        StatusText (SendingTicket (0 + 1) 2);
        Expander (JString (id (values sample_first_row "id"))) p;
        HttpPost "http://localhost/hook" p;
        report ] ++ pause.
Proof.
  apply (progress_precedes_delivery id sample_env 2 "http://localhost/hook"
           (1 # 2) (3 # 2) 0 sample_first_row
           {| successful_sends := 0; failed_sends := 0 |} initial_world).
  - discriminate.
  - intros col H. unfold required_columns in H. simpl.
    rewrite !elem_of_cons in *. rewrite elem_of_nil in H. tauto.
  - exact sample_env_keeps_contract.
Defined.

(** ** Scenarios *)

(** A table without the [subject] column: one error naming it, no post. *)
Example missing_subject_scenario :
  main id (λ _, 1%Z) sample_env (Some (Ret table_without_subject))
    "http://localhost/hook" (1 # 2) (3 # 2) true initial_world =
  (Ret tt, initial_world, [StError (MissingColumns ["subject"]); StInfo RequiredColumns]).
Proof. reflexivity. Qed.

(** Two records, no connection for the first and status 500 for the second:
    one failure, then one success with status 500; the rate is shown
    as 50.0%. *)
Example mixed_outcomes_scenario :
  let out := send_tickets_process id sample_env sample_table "http://localhost/hook"
               (1 # 2) (3 # 2) initial_world in
  result out = Ret {| total := 2; successes := 1; failures := 1; success_rate := 100 # 2 |} ∧
  item_events (trace out) =
    [ StError (ErrorSending (JString "T-1") "Connection refused");
      StSuccess (TicketSent (JString "T-2") 500) ] ∧
  progress_events (trace out) = [(1, 2); (2, 2)]%Z ∧
  length (delays (trace out)) = 1%nat ∧
  MetricText "Success rate" "50.0%" ∈ trace out.
Proof. repeat split. vm_compute. by repeat constructor. Qed.

(** * Further properties of the program *)

(** ** Rows without a field *)

Section MissingFields.

Context {Value : Type}.
Variable str : Value → string.
Implicit Types (row : Series (Value := Value)).

Lemma missing_fields_nil row : missing_fields row = [] ↔ has_required row.
Proof.
  unfold missing_fields, has_required. split.
  - intros Hnil col Hcol. destruct (decide (col ∈ index row)) as [|Hn]; [done|].
    assert (col ∈ filter (λ c, c ∉ index row) required_columns) as Hin
      by (by apply list_elem_of_filter).
    rewrite Hnil in Hin. by apply not_elem_of_nil in Hin.
  - intros Hall. destruct (filter _ _) as [|col rest] eqn:E; [done|].
    assert (col ∈ filter (λ c, c ∉ index row) required_columns) as Hin
      by (rewrite E; left).
    apply list_elem_of_filter in Hin as [Hn Hcol]. destruct Hn. by apply Hall.
Qed.

Lemma create_ticket_payload_missing row col rest :
  missing_fields row = col :: rest →
  create_ticket_payload str row = Raise (KeyError col).
Proof.
  unfold missing_fields, required_columns, create_ticket_payload, row_get.
  unfold mbind, res_bind.
  repeat (rewrite filter_cons; destruct (decide (_ ∈ index row));
          [rewrite decide_False by tauto|rewrite decide_True by done; by intros [= <- _]]).
  by rewrite filter_nil.
Qed.

End MissingFields.

(** X1. Building a payload succeeds exactly for a row that carries the six
    fields; otherwise it raises [KeyError] for the first field, in the order
    id, channel, customer_name, subject, fullMessage, sentiment_name, that
    the row lacks. *)
Theorem payload_key_error {Value : Type} (str : Value → string) (row : Series) :
  (has_required row ↔ (∃ p, create_ticket_payload str row = Ret p)) ∧
  (∀ col rest, missing_fields row = col :: rest →
     col ∈ required_columns ∧ (col ∉ index row) ∧
     create_ticket_payload str row = Raise (KeyError col)).
Proof.
  split.
  - split.
    + intros H. eexists. by apply create_ticket_payload_ok.
    + intros [p Hp]. apply missing_fields_nil.
      destruct (missing_fields row) as [|col rest] eqn:E; [done|].
      rewrite (create_ticket_payload_missing str row col rest E) in Hp. discriminate.
  - intros col rest E. split; [|split].
    + assert (col ∈ missing_fields row) as Hin by (rewrite E; left).
      unfold missing_fields in Hin. by apply list_elem_of_filter in Hin as [_ ?].
    + assert (col ∈ missing_fields row) as Hin by (rewrite E; left).
      unfold missing_fields in Hin. by apply list_elem_of_filter in Hin as [? _].
    + by eapply create_ticket_payload_missing.
Qed.

(** X2. The payload is made of the six fields only: two rows whose six fields
    have the same texts give the same payload, whatever else they hold. *)
Theorem payload_ignores_other_columns {Value : Type} (str : Value → string)
    (row1 row2 : Series) :
  has_required row1 →
  has_required row2 →
  (∀ col, col ∈ required_columns → str (values row1 col) = str (values row2 col)) →
  create_ticket_payload str row1 = create_ticket_payload str row2.
Proof.
  intros H1 H2 Hsame.
  rewrite (create_ticket_payload_ok str row1 H1), (create_ticket_payload_ok str row2 H2).
  rewrite !Hsame by (unfold required_columns; repeat constructor). reflexivity.
Qed.

Lemma payload_ignores_other_columns_witness :
  create_ticket_payload id sample_first_row =
  create_ticket_payload id sample_first_row_urgent.
Proof.
  apply (payload_ignores_other_columns id sample_first_row sample_first_row_urgent).
  - intros col H. unfold required_columns in H. simpl.
    rewrite !elem_of_cons in *. rewrite elem_of_nil in H. tauto.
  - intros col H. unfold required_columns in H. simpl.
    rewrite !elem_of_cons in *. rewrite elem_of_nil in H. tauto.
  - intros col H. unfold required_columns in H.
    rewrite !elem_of_cons, elem_of_nil in H.
    destruct H as [->|[->|[->|[->|[->|[->|[]]]]]]]; reflexivity.
Defined.

(** ** The column check and the order of columns *)

Lemma filter_ext_elem {A} (P Q : A → Prop) `{!∀ x, Decision (P x)} `{!∀ x, Decision (Q x)}
    (l : list A) :
  (∀ x, x ∈ l → (P x ↔ Q x)) → filter P l = filter Q l.
Proof.
  induction l as [|x l IH]; intros Hl; [done|].
  rewrite !filter_cons.
  rewrite IH by (intros y Hy; apply Hl; by right).
  destruct (decide (P x)) as [HP|HP], (decide (Q x)) as [HQ|HQ]; try done.
  - destruct HQ. apply Hl; [left|done].
  - destruct HP. apply Hl; [left|done].
Qed.

(** X3. The column check looks only at which of the six required names are
    column labels: tables that agree on that pass or fail together, with the
    same messages, whatever the order of their columns, their other columns
    and their rows. *)
Theorem validation_ignores_order_and_extras {Value : Type}
    (df1 df2 : DataFrame (Value := Value)) (w : World) :
  (∀ col, col ∈ required_columns → (col ∈ columns df1 ↔ col ∈ columns df2)) →
  validate_csv_structure df1 w = validate_csv_structure df2 w.
Proof.
  intros H. rewrite !validate_csv_structure_eq.
  assert (missing_columns df1 = missing_columns df2) as ->; [|done].
  unfold missing_columns. apply filter_ext_elem.
  intros col Hcol. by rewrite (H col Hcol).
Qed.

Lemma validation_ignores_order_and_extras_witness :
  validate_csv_structure sample_table initial_world =
  validate_csv_structure shuffled_table initial_world.
Proof.
  apply (validation_ignores_order_and_extras sample_table shuffled_table initial_world).
  intros col H. unfold required_columns in H. simpl.
  rewrite !elem_of_cons, elem_of_nil in *. tauto.
Defined.

(** ** A run without the column check *)

(** X4. Called on a table that has rows but lacks a required column,
    [send_tickets_process] raises [KeyError] for the first missing column
    while it builds the first payload: it has announced ticket 1 and has
    posted nothing. *)
Theorem run_without_check_raises {Value : Type} (str : Value → string) (env : Env)
    (df : DataFrame (Value := Value)) (endpoint : string) (delay_min delay_max : Q)
    (w : World) :
  ¬ valid df →
  (len df > 0)%Z →
  let out := send_tickets_process str env df endpoint delay_min delay_max w in
  ∃ col rest,
    missing_columns df = col :: rest ∧
    result out = Raise (KeyError col) ∧
    world out = w ∧
    posts (trace out) = [] ∧
    trace out = [ ProgressBar 0;
                  ProgressBar (inject_Z 1 / inject_Z (len df));
                  StatusText (SendingTicket 1 (len df)) ].
Proof.
  intros Hv Hpos out. unfold valid in Hv.
  destruct (missing_columns df) as [|col rest] eqn:Hmiss; [done|].
  exists col, rest. split; [done|].
  assert (∃ row rows, iterrows df = row :: rows ∧ index row = columns df)
    as (row & rows & Hrows & Hindex).
  { unfold iterrows. unfold len in Hpos. destruct (data df) as [|cells others].
    - simpl in Hpos. lia.
    - by eexists _, _. }
  assert (create_ticket_payload str row = Raise (KeyError col)) as Hp.
  { apply create_ticket_payload_missing with rest.
    unfold missing_fields. by rewrite Hindex. }
  unfold out, send_tickets_process. rewrite Hrows. cbn [loop]. unfold loop_body.
  rewrite truediv_ok by lia. rewrite Hp.
  unfold result, world, trace, mbind, M_bind, lift, emit. simpl.
  by repeat split.
Qed.

Lemma run_without_check_raises_witness :
  let out := send_tickets_process id sample_env table_without_subject
               "http://localhost/hook" (1 # 2) (3 # 2) initial_world in
  ∃ col rest,
    missing_columns table_without_subject = col :: rest ∧
    result out = Raise (KeyError col) ∧
    world out = initial_world ∧
    posts (trace out) = [] ∧
    trace out = [ ProgressBar 0;
                  ProgressBar (inject_Z 1 / inject_Z (len table_without_subject));
                  StatusText (SendingTicket 1 (len table_without_subject)) ].
Proof.
  apply (run_without_check_raises id sample_env table_without_subject
           "http://localhost/hook" (1 # 2) (3 # 2) initial_world).
  - unfold valid. vm_compute. discriminate.
  - reflexivity.
Defined.

(** ** [main] *)

Section MainFacts.

Context {Value : Type}.
Variable str : Value → string.
Variable nunique : list Value → Z.
Variable env : Env.
Implicit Types (df : DataFrame (Value := Value)) (w : World).

Lemma run_returns df endpoint delay_min delay_max w :
  keeps_contract env →
  valid df →
  ∃ s, result (send_tickets_process str env df endpoint delay_min delay_max w) = Ret s.
Proof.
  intros Hc Hv.
  destruct (run_invariant str env (λ _ _ _ _, True) df endpoint delay_min delay_max w Hc Hv)
    as (c' & w' & t & Hrun & _); [done..|].
  rewrite Hrun. by eexists.
Qed.

(** What [main] adds after the run: the error message, if the run raised. *)
Lemma main_valid_eq df endpoint delay_min delay_max button w :
  valid df →
  main str nunique env (Some (Ret df)) endpoint delay_min delay_max button w =
    if decide (endpoint ≠ "") then
      if button then
        let out := send_tickets_process str env df endpoint delay_min delay_max w in
        (Ret tt, world out,
         preview_events nunique df ++ [Markdown] ++ trace out ++
         match result out with
         | Ret _ => []
         | Raise e => [StError (ErrorProcessingCsv e)]
         end)
      else (Ret tt, w, preview_events nunique df ++ [Markdown])
    else (Ret tt, w, preview_events nunique df ++ [StWarning EnterEndpoint]).
Proof.
  intros Hv.
  unfold main, try_except, mbind, M_bind, lift, emit, mret, M_ret.
  rewrite validate_csv_structure_eq, decide_True by done.
  unfold column.
  rewrite !(decide_True (P := _ ∈ columns df))
    by (apply valid_required; [done|unfold required_columns; repeat constructor]).
  destruct (decide (endpoint ≠ "")); [|reflexivity].
  destruct button; [|reflexivity].
  destruct (send_tickets_process str env df endpoint delay_min delay_max w)
    as [[[s|e] w'] t]; unfold result, world, trace, preview_events; simpl.
  - by rewrite !app_nil_r.
  - reflexivity.
Qed.

Lemma processing_errors_app t1 t2 :
  processing_errors (t1 ++ t2) = processing_errors t1 ++ processing_errors t2.
Proof. apply omap_app. Qed.

(** The run itself never shows that message, whether it returns or raises. *)
Lemma processing_errors_run df endpoint delay_min delay_max w :
  valid df →
  processing_errors
    (trace (send_tickets_process str env df endpoint delay_min delay_max w)) = [].
Proof.
  intros Hv.
  destruct (run_outcome str env (λ _ _ _ t, processing_errors t = [])
              df endpoint delay_min delay_max w Hv)
    as [(c' & w' & t & Hrun & Ht)
       |(before & row & rest & c1 & w1 & t1 & p & e & _ & Ht & _ & _ & Hrun)].
  - intros done row c w0 t p success status_code response_text Ht _ _ Hd. simpl.
    rewrite processing_errors_app, Ht.
    unfold turn_events. by destruct success, (pause_after _ _).
  - reflexivity.
  - rewrite Hrun. unfold trace. simpl. rewrite processing_errors_app, Ht.
    unfold closing_events. by repeat case_decide.
  - rewrite Hrun. unfold trace. simpl. by rewrite processing_errors_app, Ht.
Qed.

End MainFacts.

(** X5. [main] posts only when everything is in place: if its trace holds a
    post, then a file was uploaded and read, the table passed the column
    check and has rows, the endpoint is not empty and the button was
    pressed. *)
Theorem main_posts_only_when_ready {Value : Type} (str : Value → string)
    (nunique : list Value → Z) (env : Env)
    (csv_file : option (res (DataFrame (Value := Value)))) (endpoint : string)
    (delay_min delay_max : Q) (button : bool) (w : World) :
  posts (trace (main str nunique env csv_file endpoint delay_min delay_max button w)) ≠ [] →
  ∃ df, csv_file = Some (Ret df) ∧ valid df ∧ (len df > 0)%Z ∧
        endpoint ≠ "" ∧ button = true.
Proof.
  intros Hposts. destruct csv_file as [[df|e]|]; [|done..].
  exists df. split; [done|].
  destruct (decide (missing_columns df = [])) as [Hv|Hv].
  2: { by rewrite main_invalid in Hposts. }
  split; [done|]. rewrite main_valid_eq in Hposts by done.
  destruct (decide (endpoint ≠ "")); [|done].
  destruct button; [|done]. split; [|done].
  destruct (decide (len df > 0)%Z) as [|Hlen]; [done|].
  assert (len df = 0%Z) as H0 by (unfold len in *; lia).
  by rewrite send_tickets_process_empty in Hposts.
Qed.

Lemma main_posts_only_when_ready_witness :
  ∃ df, Some (Ret sample_table) = Some (Ret df) ∧ valid df ∧ (len df > 0)%Z ∧
        "http://localhost/hook" ≠ "" ∧ true = true.
Proof.
  apply (main_posts_only_when_ready id count_distinct sample_env (Some (Ret sample_table))
           "http://localhost/hook" (1 # 2) (3 # 2) true initial_world).
  vm_compute. discriminate.
Defined.

(** X6. [main] never raises: it turns an exception into the message "error
    processing CSV file" with that exception.  The message appears once when
    reading the file raised, once when the table passed the column check, the
    endpoint is set, the button was pressed and the run raised (an exception
    of [requests.post] that [send_ticket] does not handle), and not otherwise;
    so it does not appear for a readable file when [requests.post] keeps to
    its contract. *)
Theorem main_reports_exceptions {Value : Type} (str : Value → string)
    (nunique : list Value → Z) (env : Env)
    (csv_file : option (res (DataFrame (Value := Value)))) (endpoint : string)
    (delay_min delay_max : Q) (button : bool) (w : World) :
  let out := main str nunique env csv_file endpoint delay_min delay_max button w in
  result out = Ret tt ∧
  processing_errors (trace out) =
    match csv_file with
    | None => []
    | Some (Raise e) => [e]
    | Some (Ret df) =>
        if decide (missing_columns df = []) then
          if decide (endpoint ≠ "") then
            if button then
              match result (send_tickets_process str env df endpoint
                              delay_min delay_max w) with
              | Ret _ => []
              | Raise e => [e]
              end
            else []
          else []
        else []
    end ∧
  (keeps_contract env →
   processing_errors (trace out) =
     match csv_file with
     | Some (Raise e) => [e]
     | _ => []
     end).
Proof.
  intros out. unfold out. destruct csv_file as [[df|e]|]; [|done..].
  destruct (decide (missing_columns df = [])) as [Hv|Hv].
  2: { by rewrite main_invalid. }
  rewrite main_valid_eq by done.
  destruct (decide (endpoint ≠ "")); [|done].
  destruct button; [|done]. split; [done|].
  unfold trace at 1 3. simpl.
  change (processing_errors (Markdown :: ?t)) with (processing_errors t).
  rewrite processing_errors_app, processing_errors_run by done. simpl.
  split.
  - by destruct (result _).
  - intros Hc. destruct (run_returns str env df endpoint delay_min delay_max w Hc Hv)
      as [s ->]. reflexivity.
Qed.

(** X7. With a table that passed the column check, a non-empty endpoint and
    the button pressed, [main] shows the preview and the three statistics,
    then does exactly what [send_tickets_process] does on that table, and
    after it shows nothing, unless the run raised: then it shows the message
    "error processing CSV file" with the exception of the run. *)
Theorem main_runs_engine {Value : Type} (str : Value → string)
    (nunique : list Value → Z) (env : Env) (df : DataFrame (Value := Value))
    (endpoint : string) (delay_min delay_max : Q) (w : World) :
  valid df →
  endpoint ≠ "" →
  let run := send_tickets_process str env df endpoint delay_min delay_max w in
  main str nunique env (Some (Ret df)) endpoint delay_min delay_max true w =
    (Ret tt, world run,
     [ StSuccess (ValidCsvLoaded (len df));
       Subheader "👀 CSV Preview";
       Dataframe;
       Metric "Total tickets" (len df);
       Metric "Unique channels" (nunique (map (λ cells, cells "channel") (data df)));
       Metric "Unique customers" (nunique (map (λ cells, cells "customer_name") (data df)));
       Markdown ] ++ trace run ++
     match result run with
     | Ret _ => []
     | Raise e => [StError (ErrorProcessingCsv e)]
     end).
Proof.
  intros Hv Hep run. rewrite main_valid_eq by done.
  by rewrite decide_True by done.
Qed.

Lemma main_runs_engine_witness :
  let run := send_tickets_process id unparsable_host_env sample_table
               long_label_endpoint (1 # 2) (3 # 2) initial_world in
  main id count_distinct unparsable_host_env (Some (Ret sample_table))
    long_label_endpoint (1 # 2) (3 # 2) true initial_world =
    (Ret tt, world run,
     [ StSuccess (ValidCsvLoaded (len sample_table));
       Subheader "👀 CSV Preview";
       Dataframe;
       Metric "Total tickets" (len sample_table);
       Metric "Unique channels"
         (count_distinct (map (λ cells, cells "channel") (data sample_table)));
       Metric "Unique customers"
         (count_distinct (map (λ cells, cells "customer_name") (data sample_table)));
       Markdown ] ++ trace run ++
     match result run with
     | Ret _ => []
     | Raise e => [StError (ErrorProcessingCsv e)]
     end).
Proof.
  apply (main_runs_engine id count_distinct unparsable_host_env sample_table
           long_label_endpoint (1 # 2) (3 # 2) initial_world).
  - reflexivity.
  - discriminate.
Defined.

(** ** The closing summary *)

(** X8. A run over a valid table, with [requests.post] keeping to its
    contract, always ends with a verdict, right after the
    success rate: the balloons and "all tickets were sent" when no delivery
    failed, the warning with the number of failures otherwise.  It never ends
    without one. *)
Theorem run_ends_with_verdict {Value : Type} (str : Value → string) (env : Env)
    (df : DataFrame (Value := Value)) (endpoint : string) (delay_min delay_max : Q)
    (w : World) :
  valid df →
  keeps_contract env →
  let out := send_tickets_process str env df endpoint delay_min delay_max w in
  ∃ s before,
    result out = Ret s ∧
    (0 <= successes s)%Z ∧ (0 <= failures s)%Z ∧
    trace out =
      before ++ [MetricText "Success rate" (format_1f (success_rate s) +:+ "%")] ++
      if decide (failures s = 0%Z) then [Balloons; StSuccess AllTicketsSent]
      else [StWarning (CompletedWithErrors (failures s))].
Proof.
  intros Hv Hc out.
  destruct (run_invariant str env
    (λ done c _ _, (0 <= successful_sends c)%Z ∧ (0 <= failed_sends c)%Z ∧
                   (successful_sends c + failed_sends c = Z.of_nat (length done))%Z)
    df endpoint delay_min delay_max w Hc Hv) as (c' & w' & t & Hrun & Hs & Hf & Hsum).
  - intros done row c w0 t p success status_code response_text (Hs & Hf & Hsum) _ _ Hd. simpl. rewrite length_app. simpl.
    destruct success; simpl; lia.
  - simpl. lia.
  - rewrite length_iterrows in Hsum. unfold out. rewrite Hrun.
    eexists _, (ProgressBar 0 :: t ++ [_; _; _; _; _; _]).
    unfold result, trace. simpl. split; [reflexivity|]. split; [done|]. split; [done|].
    unfold closing_events. f_equal. rewrite <- !app_assoc. f_equal. simpl.
    do 7 f_equal.
    destruct (decide (failed_sends c' = 0%Z)).
    + by rewrite decide_True by lia.
    + rewrite decide_False by lia. by rewrite decide_True by lia.
Qed.

Lemma run_ends_with_verdict_witness :
  let out := send_tickets_process id sample_env sample_table "http://localhost/hook"
               (1 # 2) (3 # 2) initial_world in
  ∃ s before,
    result out = Ret s ∧
    (0 <= successes s)%Z ∧ (0 <= failures s)%Z ∧
    trace out =
      before ++ [MetricText "Success rate" (format_1f (success_rate s) +:+ "%")] ++
      if decide (failures s = 0%Z) then [Balloons; StSuccess AllTicketsSent]
      else [StWarning (CompletedWithErrors (failures s))].
Proof.
  apply (run_ends_with_verdict id sample_env sample_table "http://localhost/hook"
           (1 # 2) (3 # 2) initial_world).
  - reflexivity.
  - exact sample_env_keeps_contract.
Defined.







(** ** Pauses *)

Lemma uniform_value_between env (a b : Q) n :
  (a <= uniform_value env a b n <= b)%Q ∨ (b <= uniform_value env a b n <= a)%Q.
Proof.
  destruct (Qlt_le_dec b a) as [Hba|Hab].
  - right. unfold uniform_value.
    pose proof (random_unit (random_bits env n)) as [Hr0 Hr1].
    set (r := (inject_Z (random_bits env n `mod` two53) / inject_Z two53)%Q) in *.
    clearbody r.
    assert (0 <= (a - b) * r)%Q by (apply Qmult_le_0_compat; lra).
    assert (0 <= (a - b) * (1 - r))%Q by (apply Qmult_le_0_compat; lra).
    split; lra.
  - left. by apply uniform_value_range.
Qed.

(** X10. The two delay settings are not compared: whichever is the larger,
    every pause of a run over a valid table lasts between the two, so no
    pause is negative when neither setting is.  This holds of runs that
    return and of runs that raise. *)
Theorem delays_between_settings {Value : Type} (str : Value → string) (env : Env)
    (df : DataFrame (Value := Value)) (endpoint : string) (delay_min delay_max : Q)
    (w : World) :
  valid df →
  let out := send_tickets_process str env df endpoint delay_min delay_max w in
  Forall (λ d, (delay_min <= d <= delay_max)%Q ∨ (delay_max <= d <= delay_min)%Q)
    (delays (trace out)) ∧
  ((0 <= delay_min)%Q → (0 <= delay_max)%Q →
   Forall (λ d, (0 <= d)%Q) (delays (trace out))).
Proof.
  intros Hv out.
  assert (∃ t, delays (trace out) = delays t ∧
    Forall (λ d, (delay_min <= d <= delay_max)%Q ∨ (delay_max <= d <= delay_min)%Q)
      (delays t)) as (t & -> & Ht).
  { destruct (run_outcome str env
      (λ _ _ _ t,
         Forall (λ d, (delay_min <= d <= delay_max)%Q ∨ (delay_max <= d <= delay_min)%Q)
           (delays t))
      df endpoint delay_min delay_max w Hv)
      as [(c' & w' & t & Hrun & Ht)
         |(before & row & rest & c1 & w1 & t & p & e & _ & Ht & _ & _ & Hrun)].
    - intros done row c w0 t p success status_code response_text Ht _ _ Hd. simpl.
      rewrite delays_app, delays_turn_events. apply Forall_app. split; [done|].
      destruct (pause_after _ _); [|constructor].
      constructor; [apply uniform_value_between|constructor].
    - constructor.
    - exists t. split; [|done]. unfold out. rewrite Hrun. unfold trace. simpl.
      by rewrite delays_app, delays_closing_events, app_nil_r.
    - exists t. split; [|done]. unfold out. rewrite Hrun. unfold trace. simpl.
      by rewrite delays_app, app_nil_r. }
  split; [done|]. intros Hmin Hmax.
  eapply Forall_impl; [exact Ht|]. intros d [[? ?]|[? ?]]; lra.
Qed.

Lemma delays_between_settings_witness :
  let out := send_tickets_process id sample_env sample_table "http://localhost/hook"
               5 (1 # 10) initial_world in
  Forall (λ d, (5 <= d <= 1 # 10)%Q ∨ (1 # 10 <= d <= 5)%Q) (delays (trace out)) ∧
  ((0 <= 5)%Q → (0 <= 1 # 10)%Q → Forall (λ d, (0 <= d)%Q) (delays (trace out))).
Proof.
  apply (delays_between_settings id sample_env sample_table "http://localhost/hook"
           5 (1 # 10) initial_world).
  reflexivity.
Defined.

(** ** Pacing *)

Lemma pacing_app t1 t2 : pacing (t1 ++ t2) = pacing t1 ++ pacing t2.
Proof. apply omap_app. Qed.

Lemma pacing_of_turns_S n k :
  pacing_of_turns n (S k) =
    pacing_of_turns n k ++
    Attempt :: if pause_after n (Z.of_nat k) then [Pause] else [].
Proof.
  unfold pacing_of_turns. rewrite seqZ_S, flat_map_app. simpl.
  by rewrite app_nil_r.
Qed.

Lemma pacing_of_turns_early n k :
  (Z.of_nat k <= n - 1)%Z →
  pacing_of_turns n k = mjoin (replicate k [Attempt; Pause]).
Proof.
  induction k as [|k IH]; intros Hk; [done|].
  rewrite pacing_of_turns_S, IH by lia.
  unfold pause_after. rewrite bool_decide_eq_true_2 by lia.
  clear. induction k as [|k IH]; [done|]. simpl. by rewrite IH.
Qed.

(** X11. In a run over a valid table with rows, with [requests.post] keeping
    to its contract, posts and pauses alternate,
    starting and ending with a post: there is exactly one pause between two
    consecutive posts and no two posts follow each other directly. *)
Theorem posts_and_pauses_alternate {Value : Type} (str : Value → string) (env : Env)
    (df : DataFrame (Value := Value)) (endpoint : string) (delay_min delay_max : Q)
    (w : World) :
  valid df →
  keeps_contract env →
  (len df > 0)%Z →
  let out := send_tickets_process str env df endpoint delay_min delay_max w in
  pacing (trace out) =
    mjoin (replicate (length (data df) - 1) [Attempt; Pause]) ++ [Attempt].
Proof.
  intros Hv Hc Hpos out.
  destruct (run_invariant str env
    (λ done _ _ t, pacing t = pacing_of_turns (len df) (length done))
    df endpoint delay_min delay_max w Hc Hv) as (c' & w' & t & Hrun & Ht).
  - intros done row c w0 t p success status_code response_text Ht _ _ Hd. simpl.
    rewrite pacing_app, Ht, length_app, Nat.add_1_r, pacing_of_turns_S.
    f_equal. unfold turn_events.
    by destruct success, (pause_after _ _).
  - reflexivity.
  - unfold out. rewrite Hrun. unfold trace. simpl.
    change (ProgressBar 0 :: t ++ closing_events (len df) c')
      with ([ProgressBar 0] ++ t ++ closing_events (len df) c').
    rewrite !pacing_app, Ht.
    assert (pacing (closing_events (len df) c') = []) as ->
      by (unfold closing_events; by repeat case_decide).
    simpl. rewrite app_nil_r.
    assert (length (iterrows df) = length (data df)) as ->
      by (unfold iterrows; by rewrite length_map).
    unfold len in *. destruct (length (data df)) as [|k] eqn:Hk; [simpl in Hpos; lia|].
    rewrite pacing_of_turns_S, pacing_of_turns_early by lia.
    unfold pause_after. rewrite bool_decide_eq_false_2 by lia.
    by rewrite Nat.sub_succ, Nat.sub_0_r.
Qed.

Lemma posts_and_pauses_alternate_witness :
  let out := send_tickets_process id sample_env sample_table "http://localhost/hook"
               (1 # 2) (3 # 2) initial_world in
  pacing (trace out) =
    mjoin (replicate (length (data sample_table) - 1) [Attempt; Pause]) ++ [Attempt].
Proof.
  apply (posts_and_pauses_alternate id sample_env sample_table "http://localhost/hook"
           (1 # 2) (3 # 2) initial_world).
  - reflexivity.
  - exact sample_env_keeps_contract.
  - reflexivity.
Defined.

(** ** What is shown and what is sent *)

Lemma shown_app t1 t2 : shown (t1 ++ t2) = shown t1 ++ shown t2.
Proof. apply omap_app. Qed.

(** X12. In a run over a valid table the payloads shown to the user are the
    payloads posted, one for one and in the same order, and each is shown
    under its own [external_id].  This holds of runs that return and of runs
    that raise. *)
Theorem shown_payload_is_sent {Value : Type} (str : Value → string) (env : Env)
    (df : DataFrame (Value := Value)) (endpoint : string) (delay_min delay_max : Q)
    (w : World) :
  valid df →
  let out := send_tickets_process str env df endpoint delay_min delay_max w in
  Forall2 (λ display attempt,
             display.2 = attempt.2 ∧ getitem attempt.2 "external_id" = Ret display.1)
    (shown (trace out)) (posts (trace out)).
Proof.
  intros Hv out.
  destruct (run_outcome str env
    (λ _ _ _ t,
       Forall2 (λ display attempt,
                  display.2 = attempt.2 ∧ getitem attempt.2 "external_id" = Ret display.1)
         (shown t) (posts t))
    df endpoint delay_min delay_max w Hv)
    as [(c' & w' & t & Hrun & Ht)
       |(before & row & rest & c1 & w1 & t & p & e & _ & Ht & Hp & _ & Hrun)].
  - intros done row c w0 t p success status_code response_text Ht _ Hp Hd. simpl.
    rewrite shown_app, posts_app, posts_turn_events. apply Forall2_app; [done|].
    assert (shown (turn_events env (len df) endpoint delay_min delay_max
                     (Z.of_nat (length done)) (JString (str (values row "id"))) p
                     success status_code response_text (numbers_drawn w0))
            = [(JString (str (values row "id")), p)]) as ->
      by (unfold turn_events; by destruct success, (pause_after _ _)).
    constructor; [|constructor]. split; [done|]. simpl.
    by apply create_ticket_payload_external_id.
  - constructor.
  - unfold out. rewrite Hrun. unfold trace. simpl.
    change (ProgressBar 0 :: t ++ closing_events (len df) c')
      with ([ProgressBar 0] ++ t ++ closing_events (len df) c').
    rewrite !shown_app, !posts_app, posts_closing_events.
    assert (shown (closing_events (len df) c') = []) as ->
      by (unfold closing_events; by repeat case_decide).
    simpl. by rewrite !app_nil_r.
  - unfold out. rewrite Hrun. unfold trace. simpl.
    change (ProgressBar 0 :: ?l) with ([ProgressBar 0] ++ l).
    rewrite !shown_app, !posts_app. simpl.
    apply Forall2_app; [done|]. constructor; [|constructor].
    split; [done|]. simpl. by apply create_ticket_payload_external_id.
Qed.

Lemma shown_payload_is_sent_witness :
  let out := send_tickets_process id sample_env sample_table "http://localhost/hook"
               (1 # 2) (3 # 2) initial_world in
  Forall2 (λ display attempt,
             display.2 = attempt.2 ∧ getitem attempt.2 "external_id" = Ret display.1)
    (shown (trace out)) (posts (trace out)).
Proof.
  apply (shown_payload_is_sent id sample_env sample_table "http://localhost/hook"
           (1 # 2) (3 # 2) initial_world).
  reflexivity.
Defined.

(** ** Random draws *)

(** X13. A run over a valid table, with [requests.post] keeping to its
    contract, draws one random number per pause and none
    otherwise: the pauses are computed, in order, from the next draws after
    those made before the run, one each, and the run leaves the count of
    draws advanced by the number of rows less one. *)
Theorem one_draw_per_pause {Value : Type} (str : Value → string) (env : Env)
    (df : DataFrame (Value := Value)) (endpoint : string) (delay_min delay_max : Q)
    (w : World) :
  valid df →
  keeps_contract env →
  let out := send_tickets_process str env df endpoint delay_min delay_max w in
  delays (trace out) =
    (λ k, uniform_value env delay_min delay_max (numbers_drawn w + k)) <$>
      seq 0 (length (data df) - 1) ∧
  numbers_drawn (world out) = (numbers_drawn w + (length (data df) - 1))%nat.
Proof.
  intros Hv Hc out.
  destruct (run_invariant str env
    (λ done _ w' t,
       numbers_drawn w' = (numbers_drawn w + length (delays t))%nat ∧
       delays t =
         ((λ k, uniform_value env delay_min delay_max (numbers_drawn w + k)) <$>
            seq 0 (length (delays t))) ∧
       Z.of_nat (length (delays t)) =
         Z.max 0 (Z.min (Z.of_nat (length done)) (len df - 1)))
    df endpoint delay_min delay_max w Hc Hv) as (c' & w' & t & Hrun & Hdrawn & Hdelays & Hcount).
  - intros done row c w0 t p success status_code response_text (Hdrawn & Hdelays & Hcount) _ _ Hd. simpl.
    rewrite delays_app, delays_turn_events, !length_app, Nat2Z.inj_add.
    unfold pause_after. case_bool_decide as Hpause; simpl.
    + rewrite Nat.add_1_r, seq_S, fmap_app, <- Hdelays, Hdrawn. simpl.
      split; [lia|]. split; [done|]. lia.
    + rewrite app_nil_r, Nat.add_0_r. split; [done|]. split; [done|]. lia.
  - simpl. split; [lia|]. split; [done|]. lia.
  - assert (delays (trace out) = delays t) as ->.
    { unfold out. rewrite Hrun. unfold trace. simpl.
      by rewrite delays_app, delays_closing_events, app_nil_r. }
    assert (world out = w') as -> by (unfold out; by rewrite Hrun).
    assert (length (delays t) = length (data df) - 1)%nat as Hlen.
    { rewrite length_iterrows in Hcount. unfold len in Hcount. lia. }
    rewrite Hlen in Hdelays, Hdrawn. done.
Qed.

Lemma one_draw_per_pause_witness :
  let out := send_tickets_process id sample_env sample_table "http://localhost/hook"
               (1 # 2) (3 # 2) initial_world in
  delays (trace out) =
    (λ k, uniform_value sample_env (1 # 2) (3 # 2) (numbers_drawn initial_world + k)) <$>
      seq 0 (length (data sample_table) - 1) ∧
  numbers_drawn (world out) =
    (numbers_drawn initial_world + (length (data sample_table) - 1))%nat.
Proof.
  apply (one_draw_per_pause id sample_env sample_table "http://localhost/hook"
           (1 # 2) (3 # 2) initial_world).
  - reflexivity.
  - exact sample_env_keeps_contract.
Defined.

(** ** A run that raises *)


